(** * figma-mcp-server: the document-tree-to-markup generator of [server.js]

    A shallow embedding of the generator functions of [src/server.js]
    ([colorObjToRgba], [fillToCssColor], [escapeJsxText], [findFrameNode],
    [nodeToJsx], [traverseAndGenerate], [reactAppFromFrame],
    [generateFilesFromFigmaFile]) and the properties the specification
    states about them.

    Modelling conventions.
    - A JS number is an IEEE 754 binary64 value, Rocq's primitive [float]:
      [-] and [*] are the correctly rounded operations of the doubles, with
      their infinities, signed zeros and NaN.  [Math.round] is the integer
      nearest to its argument, half-way cases going up, as in JS.
    - A JS string is a [string]; the three characters the generator replaces
      are ASCII, so byte-wise replacement agrees with the code-unit-wise one.
    - An absent field is [None]; an absent [children] or [fills] array is the
      empty list, since every use in the source is guarded by a truthiness or
      length test that treats both alike.  A [children] array holds nodes:
      the [null] entries that two of the three loops skip are not modelled,
      while a [null] entry of [fills] is ([None] in the list).
    - [Number.prototype.toString], which template literals apply to numbers,
      belongs to the JS runtime and not to the repository: it is a section
      variable, so every result holds for any number formatting. *)

From Stdlib Require Import ZArith Floats String Ascii List Bool Lia.
From Stdlib Require Import Permutation DecimalString.
From Stdlib Require Uint63.
Import ListNotations.

Set Warnings "-inexact-float".

Open Scope string_scope.
Open Scope list_scope.

Notation "a ^^ b" := (String.append a b) (at level 60, right associativity).

(** ** The JS values and builtins the generator uses *)

Module Js.

(** The scalar values a field of a parsed JSON payload can hold
    ([Undefined] for an absent field). *)
Inductive value : Type :=
| Undefined
| Null
| Boolean (b : bool)
| Num (x : float)
| Str (s : string).

(** The double that is the integer [z], for [z] of at most 53 bits. *)
Definition of_Z (z : Z) : float :=
  let magnitude := PrimFloat.of_uint63 (Uint63.of_Z (Z.abs z)) in
  if (z <? 0)%Z then PrimFloat.opp magnitude else magnitude.

(** [Math.round]: NaN, the infinities, the zeros and the integers are
    returned as they are; any other [x], of value [n / 2^k] with [k > 0], gives
    [floor (n / 2^k + 1/2)], computed exactly, the nearest integer with ties
    towards plus infinity, a zero result keeping the sign of [x]. *)
Definition Math_round (x : float) : float :=
  match Prim2SF x with
  | S754_finite negative m e =>
      if (0 <=? e)%Z then x
      else
        let n := if negative then Z.neg m else Z.pos m in
        let k := (- e)%Z in
        let z := ((2 * n + 2 ^ k) / 2 ^ (k + 1))%Z in
        if (z =? 0)%Z then (if negative then (-0)%float else 0%float) else of_Z z
  | _ => x
  end.

(** Truthiness of a number: all but the two zeros and NaN. *)
Definition truthy_num (x : float) : bool :=
  negb (PrimFloat.is_zero x || PrimFloat.is_nan x).

(** Truthiness of a string. *)
Definition truthy_str (s : string) : bool :=
  match s with EmptyString => false | String _ _ => true end.

(** [x || 0] for an optional number [x]. *)
Definition or_zero (x : option float) : float :=
  match x with
  | Some v => if truthy_num v then v else 0%float
  | None => 0%float
  end.

(** [x ?? 0] for an optional number [x]. *)
Definition nullish_zero (x : option float) : float :=
  match x with Some v => v | None => 0%float end.

(** [s.replace(/c/g, by)] for a one-character pattern [c]. *)
Fixpoint replaceAll (c : ascii) (by_ : string) (s : string) : string :=
  match s with
  | EmptyString => EmptyString
  | String a rest =>
      if Ascii.eqb a c then by_ ^^ replaceAll c by_ rest
      else String a (replaceAll c by_ rest)
  end.

(** [parts.join(sep)]. *)
Definition join (sep : string) (parts : list string) : string :=
  String.concat sep parts.

End Js.

(** ** Data model: the design document *)

Module Box.
Record t : Type := mk { x : float; y : float; width : float; height : float }.
Definition zero : t := mk 0 0 0 0.
End Box.

Module Color.
Record t : Type := mk { r : option float; g : option float; b : option float }.
End Color.

Module Fill.
Record t : Type := mk {
  type : string;
  color : option Color.t;
  opacity : Js.value
}.
End Fill.

Module Style.
Record t : Type := mk { fontSize : option float }.
End Style.

Module Node.

#[local] Unset Elimination Schemes.

Inductive t : Type := mk {
  id : string;
  name : option string;
  type : string;
  absoluteBoundingBox : option Box.t;
  fills : list (option Fill.t);
  characters : option string;
  style : option Style.t;
  children : list t
}.

#[local] Set Elimination Schemes.

(** Number of nodes of a subtree, and of a sequence of subtrees. *)
Fixpoint size (n : t) : nat :=
  S (list_sum (map size (children n))).

Definition forest_size (ns : list t) : nat := list_sum (map size ns).

(** Every node of a subtree, the node first and then its children's
    subtrees in listed order. *)
Fixpoint nodes_of (n : t) : list t :=
  n :: flat_map nodes_of (children n).
End Node.

(** ** The generator *)

(** The line feed and the double quote of the generated texts. *)
Definition nl : string := String (ascii_of_nat 10) EmptyString.
Definition dq : string := String (ascii_of_nat 34) EmptyString.
Definition quoted (s : string) : string := dq ^^ s ^^ dq.
Definition lines (ls : list string) : string := Js.join nl ls.

(** [escapeJsxText]: three global replacements, [&] first. *)
Definition escapeJsxText (s : string) : string :=
  Js.replaceAll ">"%char "&gt;"
    (Js.replaceAll "<"%char "&lt;"
       (Js.replaceAll "&"%char "&amp;" s)).

(** The loop shared by the two searches of [findFrameNode]:
    [while (stack.length) { n = stack.shift(); if (p(n)) return n;
    stack.push(...n.children) }] and then [return null].  The outer [None]
    is fuel running out, which [whileSearch_fuel] shows never happens from
    [runSearch]. *)
Fixpoint whileSearch (p : Node.t -> bool) (fuel : nat) (stack : list Node.t)
  : option (option Node.t) :=
  match fuel with
  | O => None
  | S fuel' =>
      match stack with
      | [] => Some None
      | n :: rest =>
          if p n then Some (Some n)
          else whileSearch p fuel' (rest ++ Node.children n)
      end
  end.

Definition runSearch (p : Node.t -> bool) (stack : list Node.t)
  : option Node.t :=
  match whileSearch p (S (Node.forest_size stack)) stack with
  | Some found => found
  | None => None
  end.

(** The type test of the first tier (line 79). *)
Definition isCandidate (child : Node.t) : bool :=
  (Node.type child =? "FRAME")%string
  || (Node.type child =? "COMPONENT")%string
  || (Node.type child =? "INSTANCE")%string
  || (Node.type child =? "GROUP")%string
  || (Node.type child =? "RECTANGLE")%string.

Definition isFrame (n : Node.t) : bool := (Node.type n =? "FRAME")%string.

Definition hasId (nodeId : string) (n : Node.t) : bool :=
  (Node.id n =? nodeId)%string.

(** The inner [for (const child of page.children)] with its early return. *)
Fixpoint firstCandidate (children : list Node.t) : option Node.t :=
  match children with
  | [] => None
  | child :: rest =>
      if isCandidate child then Some child else firstCandidate rest
  end.

(** The outer [for (const page of documentNode.children)]. *)
Fixpoint firstCandidateOfPages (pages : list Node.t) : option Node.t :=
  match pages with
  | [] => None
  | page :: rest =>
      match firstCandidate (Node.children page) with
      | Some child => Some child
      | None => firstCandidateOfPages rest
      end
  end.

(** Lines 74-91 of [findFrameNode]: the search without a target id. *)
Definition findFirstFrame (documentNode : Node.t) : option Node.t :=
  match firstCandidateOfPages (Node.children documentNode) with
  | Some child => Some child
  | None => runSearch isFrame (Node.children documentNode)
  end.

(** [findFrameNode(documentNode, nodeId = null)]; the test [if (nodeId)]
    holds for a non-empty string only. *)
Definition findFrameNode (documentNode : Node.t) (nodeId : option string)
  : option Node.t :=
  match nodeId with
  | Some target =>
      if Js.truthy_str target then runSearch (hasId target) [documentNode]
      else findFirstFrame documentNode
  | None => findFirstFrame documentNode
  end.

(** What [generateFilesFromFigmaFile] ends with: the object it returns, as
    the list of its entries in insertion order, or the error it throws. *)
Inductive outcome : Type :=
| Returned (files : list (string * string))
| Thrown (message : string).

(** What a node contributes to the markup: the entries of [styleParts] and
    the text between the tags. *)
Record Fragment : Type := mkFragment {
  styleParts : list string;
  body : string
}.

(** The two [return] templates of [nodeToJsx]. *)
Definition renderFragment (f : Fragment) : string :=
  "<div style={{" ^^ Js.join ", " (styleParts f) ^^ "}}>" ^^ body f ^^ "</div>".

Section Generator.

(** [`${n}`] for a number [n]. *)
Variable Number_toString : float -> string.

(** [colorObjToRgba(c, a = 1)]. *)
Definition colorObjToRgba (c : Color.t) (a : Js.value) : string :=
  let a := match a with Js.Undefined => Js.Num 1 | _ => a end in
  let r := Js.Math_round (Js.nullish_zero (Color.r c) * 255) in
  let g := Js.Math_round (Js.nullish_zero (Color.g c) * 255) in
  let b := Js.Math_round (Js.nullish_zero (Color.b c) * 255) in
  let alpha := match a with Js.Num opacity => opacity | _ => 1%float end in
  "rgba(" ^^ Number_toString r ^^ ", " ^^ Number_toString g ^^ ", "
    ^^ Number_toString b ^^ ", "
    ^^ Number_toString alpha ^^ ")".

(** [fillToCssColor(fill)]; [None] is [null], for the argument (a missing
    descriptor) and for the result (no color). *)
Definition fillToCssColor (fill : option Fill.t) : option string :=
  match fill with
  | None => None
  | Some fill =>
      match (Fill.type fill =? "SOLID")%string, Fill.color fill with
      | true, Some color =>
          let a :=
            match Fill.opacity fill with
            | Js.Num q => Js.Num q
            | Js.Undefined | Js.Null => Js.Num 1
            | other => other
            end in
          Some (colorObjToRgba color a)
      | _, _ => None
      end
  end.

(** Lines 96-100 of [nodeToJsx]: the box and the four rounded numbers. *)
Definition nodeBox (node : Node.t) : Box.t :=
  match Node.absoluteBoundingBox node with
  | Some box => box
  | None => Box.zero
  end.

Definition nodeLeft (node : Node.t) (frameBox : option Box.t) : float :=
  Js.Math_round (Box.x (nodeBox node) - Js.or_zero (option_map Box.x frameBox)).

Definition nodeTop (node : Node.t) (frameBox : option Box.t) : float :=
  Js.Math_round (Box.y (nodeBox node) - Js.or_zero (option_map Box.y frameBox)).

Definition nodeWidth (node : Node.t) : float :=
  Js.Math_round (Js.or_zero (Some (Box.width (nodeBox node)))).

Definition nodeHeight (node : Node.t) : float :=
  Js.Math_round (Js.or_zero (Some (Box.height (nodeBox node)))).

(** Lines 102-108: the first five entries of [styleParts]. *)
Definition geometryParts (left top width height : float) : list string :=
  [ "position: 'absolute'";
    "left: " ^^ Number_toString left ^^ "px";
    "top: " ^^ Number_toString top ^^ "px";
    "width: " ^^ Number_toString width ^^ "px";
    "height: " ^^ Number_toString height ^^ "px" ].

(** Lines 111-115: [bg]. *)
Definition nodeBackground (node : Node.t) : option string :=
  match Node.fills node with
  | [] => None
  | fill0 :: _ =>
      match fillToCssColor fill0 with
      | Some cssC => if Js.truthy_str cssC then Some cssC else None
      | None => None
      end
  end.

Definition backgroundPart (bg : string) : string := "background: '" ^^ bg ^^ "'".

(** Line 123: [fontSize]. *)
Definition nodeFontSize (node : Node.t) : option float :=
  match Node.style node with
  | Some style =>
      match Style.fontSize style with
      | Some size => if Js.truthy_num size then Some size else None
      | None => None
      end
  | None => None
  end.

Definition fontSizePart (fontSize : float) : string :=
  "fontSize: " ^^ Number_toString fontSize ^^ "px".

Definition childrenPlaceholder : string := "{/* children inserted by generator */}".

(** [nodeToJsx(node, frameBox)], up to the final template. *)
Definition nodeFragment (node : Node.t) (frameBox : option Box.t) : Fragment :=
  let styleParts :=
    geometryParts (nodeLeft node frameBox) (nodeTop node frameBox)
                  (nodeWidth node) (nodeHeight node) in
  let styleParts :=
    match nodeBackground node with
    | Some bg => styleParts ++ [backgroundPart bg]
    | None => styleParts
    end in
  if (Node.type node =? "TEXT")%string then
    let text :=
      escapeJsxText
        (match Node.characters node with Some s => s | None => EmptyString end) in
    let styleParts :=
      match nodeFontSize node with
      | Some fontSize => styleParts ++ [fontSizePart fontSize]
      | None => styleParts
      end in
    mkFragment styleParts text
  else
    let content :=
      match Node.children node with
      | [] => EmptyString
      | _ :: _ => childrenPlaceholder
      end in
    mkFragment styleParts content.

Definition nodeToJsx (node : Node.t) (frameBox : option Box.t) : string :=
  renderFragment (nodeFragment node frameBox).

(** The loop of [traverseAndGenerate]; the outer [None] is fuel running
    out, which [whileTraverse_fuel] excludes for [traverseParts]. *)
Fixpoint whileTraverse (frameBox : option Box.t) (fuel : nat)
  (stack : list Node.t) (jsxParts : list string) : option (list string) :=
  match fuel with
  | O => None
  | S fuel' =>
      match stack with
      | [] => Some jsxParts
      | node :: rest =>
          whileTraverse frameBox fuel' (rest ++ Node.children node)
                        (jsxParts ++ [nodeToJsx node frameBox])
      end
  end.

(** [jsxParts] when the loop of [traverseAndGenerate] ends. *)
Definition traverseParts (nodes : list Node.t) (frameBox : option Box.t)
  : list string :=
  match whileTraverse frameBox (S (Node.forest_size nodes)) nodes [] with
  | Some jsxParts => jsxParts
  | None => []
  end.

Definition traverseAndGenerate (nodes : list Node.t) (frameBox : option Box.t)
  : string :=
  Js.join nl (traverseParts nodes frameBox).

(** [reactAppFromFrame(frameNode)]. *)
Definition defaultFrameBox : Box.t := Box.mk 0 0 800 600.

Definition frameBoxOf (frameNode : Node.t) : Box.t :=
  match Node.absoluteBoundingBox frameNode with
  | Some box => box
  | None => defaultFrameBox
  end.

Definition reactAppFromFrame (frameNode : Node.t) : string :=
  let frameBox := frameBoxOf frameNode in
  let children := Node.children frameNode in
  let childrenJsx := traverseAndGenerate children (Some frameBox) in
  lines
    [ "import React from " ^^ quoted "react" ^^ ";";
      "";
      "export default function App() {";
      "  return (";
      "    <div style={{ position: 'relative', width: "
        ^^ Number_toString (Js.Math_round (Box.width frameBox)) ^^ " , height: "
        ^^ Number_toString (Js.Math_round (Box.height frameBox))
        ^^ ", border: '1px solid #e5e7eb' }}>";
      "      " ^^ childrenJsx;
      "    </div>";
      "  );";
      "}";
      "" ].

(** [JSON.stringify(pkg, null, 2)]. *)
Definition packageJson : string :=
  lines
    [ "{";
      "  " ^^ quoted "name" ^^ ": " ^^ quoted "figma-generated-app" ^^ ",";
      "  " ^^ quoted "version" ^^ ": " ^^ quoted "0.0.0" ^^ ",";
      "  " ^^ quoted "private" ^^ ": true,";
      "  " ^^ quoted "scripts" ^^ ": {";
      "    " ^^ quoted "dev" ^^ ": " ^^ quoted "vite";
      "  },";
      "  " ^^ quoted "dependencies" ^^ ": {";
      "    " ^^ quoted "react" ^^ ": " ^^ quoted "^18.2.0" ^^ ",";
      "    " ^^ quoted "react-dom" ^^ ": " ^^ quoted "^18.2.0";
      "  },";
      "  " ^^ quoted "devDependencies" ^^ ": {";
      "    " ^^ quoted "vite" ^^ ": " ^^ quoted "^5.0.0";
      "  }";
      "}" ].

Definition indexHtml : string :=
  lines
    [ "<!doctype html>";
      "<html>";
      "  <head>";
      "    <meta charset=" ^^ quoted "utf-8" ^^ " />";
      "    <meta name=" ^^ quoted "viewport" ^^ " content="
        ^^ quoted "width=device-width, initial-scale=1.0" ^^ " />";
      "    <title>Figma Generated App</title>";
      "  </head>";
      "  <body>";
      "    <div id=" ^^ quoted "root" ^^ "></div>";
      "    <script type=" ^^ quoted "module" ^^ ">";
      "      import React from " ^^ quoted "react" ^^ ";";
      "      import { createRoot } from " ^^ quoted "react-dom/client" ^^ ";";
      "      import App from " ^^ quoted "./App.jsx" ^^ ";";
      "      const root = createRoot(document.getElementById("
        ^^ quoted "root" ^^ "));";
      "      root.render(React.createElement(App));";
      "    </script>";
      "  </body>";
      "</html>";
      "" ].

Definition fullReadme : string :=
  lines
    [ "This code was auto-generated from a Figma file by a local MCP server.";
      "Run:";
      "  npm install";
      "  npm run dev";
      "Then open: http://localhost:5173 (Vite default)";
      "" ].

(** [`${fallback.name}`]: an absent name prints as [undefined]. *)
Definition showName (name : option string) : string :=
  match name with Some s => s | None => "undefined" end.

Definition fallbackReadme (fallback : Node.t) : string :=
  "Generated from Figma file: fallback frame ("
    ^^ showName (Node.name fallback) ^^ ")".

(** Line 172: [doc.children[0].children[0]], or [null]. *)
Definition fallbackNode (doc : Node.t) : option Node.t :=
  match Node.children doc with
  | [] => None
  | page0 :: _ =>
      match Node.children page0 with
      | [] => None
      | child0 :: _ => Some child0
      end
  end.

Definition fullFiles (frame : Node.t) : list (string * string) :=
  [ ("App.jsx", reactAppFromFrame frame);
    ("index.html", indexHtml);
    ("package.json", packageJson);
    ("README.md", fullReadme) ].

Definition fallbackFiles (fallback : Node.t) : list (string * string) :=
  [ ("App.jsx", reactAppFromFrame fallback);
    ("README.md", fallbackReadme fallback) ].

Definition noFrameMessage : string := "No frame found in file.".

(** [generateFilesFromFigmaFile(fileJson, nodeId = null, opts = {})], with
    [doc] for [fileJson.document]; [opts] is not read. *)
Definition generateFilesFromFigmaFile (doc : Node.t) (nodeId : option string)
  : outcome :=
  match findFrameNode doc nodeId with
  | None =>
      match fallbackNode doc with
      | None => Thrown noFrameMessage
      | Some fallback => Returned (fallbackFiles fallback)
      end
  | Some frame => Returned (fullFiles frame)
  end.

End Generator.

(** A number formatting to run the generator with: decimal digits, the
    fractional part cut after twenty places. *)
Definition show_Z (z : Z) : string := NilZero.string_of_int (Z.to_int z).

Fixpoint fraction_digits (places : nat) (num den : Z) : string :=
  match places with
  | O => EmptyString
  | S places' =>
      if (num =? 0)%Z then EmptyString
      else show_Z (10 * num / den) ^^ fraction_digits places' ((10 * num) mod den) den
  end.

Definition decimal_ratio (num den : Z) : string :=
  let whole := Z.quot num den in
  let rest := Z.abs (Z.rem num den) in
  (if (num <? 0)%Z && (whole =? 0)%Z then "-" else EmptyString)
    ^^ show_Z whole
    ^^ (if (rest =? 0)%Z then EmptyString else "." ^^ fraction_digits 20 rest den).

Definition decimal (x : float) : string :=
  match Prim2SF x with
  | S754_nan => "NaN"
  | S754_infinity negative => if negative then "-Infinity" else "Infinity"
  | S754_zero _ => "0"
  | S754_finite negative m e =>
      let n := if negative then Z.neg m else Z.pos m in
      if (0 <=? e)%Z then decimal_ratio (n * 2 ^ e) 1
      else decimal_ratio n (2 ^ (- e))
  end.


(** ** Breadth-first order *)

(** Stated from the specification (section 4.4): the plies of a sequence of
    subtrees, ply [0] being the top-level nodes and the next ply the children
    of the nodes of the ply before it, in listed order; breadth-first order
    lists the plies one after the other. *)
Definition childrenOf (forest : list Node.t) : list Node.t :=
  flat_map Node.children forest.

Fixpoint ply (depth : nat) (forest : list Node.t) : list Node.t :=
  match depth with
  | O => forest
  | S depth' => ply depth' (childrenOf forest)
  end.

Definition breadthFirst (forest : list Node.t) : list Node.t :=
  concat (map (fun depth => ply depth forest) (seq 0 (Node.forest_size forest))).

(** The nodes in the order in which a [shift]/[push] loop takes them from
    its queue. *)
Fixpoint visitOrder (fuel : nat) (stack : list Node.t) : list Node.t :=
  match stack, fuel with
  | [], _ => []
  | _ :: _, O => []
  | n :: rest, S fuel' => n :: visitOrder fuel' (rest ++ Node.children n)
  end.

Definition visit (stack : list Node.t) : list Node.t :=
  visitOrder (Node.forest_size stack) stack.

(** ** Escaping, character by character *)

(** Stated from the specification (section 4.3): each of the three
    markup-unsafe characters becomes its entity form, any other character
    stays. *)
Definition escapeChar (a : ascii) : string :=
  if Ascii.eqb a "&"%char then "&amp;"
  else if Ascii.eqb a "<"%char then "&lt;"
  else if Ascii.eqb a ">"%char then "&gt;"
  else String a EmptyString.

Fixpoint escapeEach (s : string) : string :=
  match s with
  | EmptyString => EmptyString
  | String a rest => escapeChar a ^^ escapeEach rest
  end.

Definition isUnsafe (a : ascii) : bool :=
  Ascii.eqb a "&"%char || Ascii.eqb a "<"%char || Ascii.eqb a ">"%char.

(** Whether a string holds one of [&], [<], [>]. *)
Fixpoint hasUnsafe (s : string) : bool :=
  match s with
  | EmptyString => false
  | String a rest => isUnsafe a || hasUnsafe rest
  end.

(** ** What a fragment declares *)

(** An entry of [styleParts] that is pushed under a condition. *)
Definition optionalPart (part : option string) : list string :=
  match part with Some p => [p] | None => [] end.

(** Whether an entry of [styleParts] is a background declaration, and
    whether a fragment has one. *)
Definition isBackgroundPart (part : string) : bool :=
  String.prefix "background: '" part.

Definition declaresBackground (f : Fragment) : bool :=
  existsb isBackgroundPart (styleParts f).

Definition isFontSizePart (part : string) : bool :=
  String.prefix "fontSize: " part.

Definition declaresFontSize (f : Fragment) : bool :=
  existsb isFontSizePart (styleParts f).

(** Stated from the specification (sections 3 and 4.3): the color of the
    first fill of the sequence from which [fillToCssColor] gets a color, that
    is, of the first [SOLID] fill with a color, whatever stands before it. *)
Fixpoint firstSolidColor (Number_toString : float -> string)
  (fills : list (option Fill.t)) : option string :=
  match fills with
  | [] => None
  | fill :: rest =>
      match fillToCssColor Number_toString fill with
      | Some cssC => Some cssC
      | None => firstSolidColor Number_toString rest
      end
  end.

(** [node] with another [children] array, to build example trees. *)
Definition withChildren (node : Node.t) (children : list Node.t) : Node.t :=
  Node.mk (Node.id node) (Node.name node) (Node.type node)
          (Node.absoluteBoundingBox node) (Node.fills node)
          (Node.characters node) (Node.style node) children.

(** ** Example documents *)

Definition leaf (id type : string) (box : option Box.t) : Node.t :=
  Node.mk id None type box [] None None [].

(** The document of the first end-to-end scenario of the specification. *)
Definition ex_text : Node.t :=
  Node.mk "1:3" (Some "Title") "TEXT" (Some (Box.mk 10 20 50 20)) []
          (Some "Hi") (Some (Style.mk (Some 16%float))) [].

Definition ex_frame : Node.t :=
  Node.mk "1:2" (Some "Home") "FRAME" (Some (Box.mk 0 0 400 300)) []
          None None [ex_text].

Definition ex_page : Node.t :=
  Node.mk "0:1" (Some "Page 1") "PAGE" None [] None None [ex_frame].

Definition ex_doc : Node.t :=
  Node.mk "0:0" (Some "Document") "DOCUMENT" None [] None None [ex_page].

Definition ex_red : Fill.t :=
  Fill.mk "SOLID" (Some (Color.mk (Some 1%float) (Some 0%float) (Some 0%float))) Js.Undefined.

Definition ex_colorless : Fill.t := Fill.mk "SOLID" None (Js.Num 1).

Definition ex_gradient : Fill.t :=
  Fill.mk "GRADIENT_LINEAR" None Js.Undefined.

(** A text node with a font size of zero. *)
Definition ex_zero_text : Node.t :=
  Node.mk "1:4" (Some "Caption") "TEXT" (Some (Box.mk 0 0 50 20)) []
          (Some "Hi") (Some (Style.mk (Some 0%float))) [].

(** A node painted with a gradient first and a solid red second. *)
Definition ex_two_fills : Node.t :=
  Node.mk "1:5" (Some "Card") "RECTANGLE" (Some (Box.mk 0 0 10 10))
          [Some ex_gradient; Some ex_red] None None [].

(** Stated from the specification (section 4.2): rounding to the nearest
    integer with ties half away from zero. *)
Definition roundHalfAwayFromZero (x : float) : float :=
  if (x <? 0%float)%float then PrimFloat.opp (Js.Math_round (PrimFloat.opp x))
  else Js.Math_round x.

(** A node whose box starts half-way between two pixels, left of zero. *)
Definition ex_half : Node.t := leaf "1:8" "RECTANGLE" (Some (Box.mk (-2.5) 0 5 5)).

(** A node without a box, and a reference origin away from zero. *)
Definition ex_boxless : Node.t := leaf "1:6" "VECTOR" None.
Definition ex_origin : Box.t := Box.mk 10 20 400 300.

(** A document whose only page holds one text node. *)
Definition ex_lone_text : Node.t :=
  Node.mk "1:7" (Some "Note") "TEXT" None [] (Some "Hi") None [].
Definition ex_text_page : Node.t :=
  Node.mk "0:1" (Some "Page 1") "PAGE" None [] None None [ex_lone_text].
Definition ex_text_doc : Node.t :=
  Node.mk "0:0" (Some "Document") "DOCUMENT" None [] None None [ex_text_page].

(** Stated from the specification (section 4.5), word for word: the first
    child of the first page's first child. *)
Definition firstChildOfFirstPagesFirstChild (doc : Node.t) : option Node.t :=
  match Node.children doc with
  | [] => None
  | page0 :: _ =>
      match Node.children page0 with
      | [] => None
      | child0 :: _ =>
          match Node.children child0 with
          | [] => None
          | grandchild0 :: _ => Some grandchild0
          end
      end
  end.

(** ** Further notions used by the properties of the code *)

(** Whether a string holds [<] or [>]. *)
Fixpoint hasAngle (s : string) : bool :=
  match s with
  | EmptyString => false
  | String a rest =>
      Ascii.eqb a "<"%char || Ascii.eqb a ">"%char || hasAngle rest
  end.

(** Reading the three entities back; used to show that escaping loses
    nothing. *)
Fixpoint unescapeEach (s : string) : string :=
  match s with
  | EmptyString => EmptyString
  | String a rest =>
      if Ascii.eqb a "&"%char then
        match rest with
        | String "a"%char (String "m"%char (String "p"%char (String ";"%char rest'))) =>
            String "&"%char (unescapeEach rest')
        | String "l"%char (String "t"%char (String ";"%char rest')) =>
            String "<"%char (unescapeEach rest')
        | String "g"%char (String "t"%char (String ";"%char rest')) =>
            String ">"%char (unescapeEach rest')
        | _ => String a (unescapeEach rest)
        end
      else String a (unescapeEach rest)
  end.

(** [node] without [characters] and [style]. *)
Definition withoutText (node : Node.t) : Node.t :=
  Node.mk (Node.id node) (Node.name node) (Node.type node)
          (Node.absoluteBoundingBox node) (Node.fills node)
          None None (Node.children node).

(** A document in which the id [9:9] occurs twice, first two levels deep
    on the second page and then directly on the first page's frame. *)
Definition ex_deep : Node.t := leaf "9:9" "VECTOR" None.
Definition ex_shallow : Node.t := leaf "9:9" "ELLIPSE" (Some (Box.mk 1 1 2 2)).
Definition ex_holder : Node.t :=
  Node.mk "3:1" None "VECTOR" None [] None None [ex_deep].
Definition ex_page_a : Node.t :=
  Node.mk "0:1" None "PAGE" None [] None None [ex_holder].
Definition ex_page_b : Node.t :=
  Node.mk "0:2" None "PAGE" None [] None None [ex_shallow].
Definition ex_twice_doc : Node.t :=
  Node.mk "0:0" None "DOCUMENT" None [] None None [ex_page_a; ex_page_b].

(** ** Lemmas *)

(** *** Sizes *)

Lemma size_unfold (n : Node.t) :
  Node.size n = S (Node.forest_size (Node.children n)).
Proof. destruct n; reflexivity. Qed.

Lemma forest_size_cons (n : Node.t) (ns : list Node.t) :
  Node.forest_size (n :: ns) = Node.size n + Node.forest_size ns.
Proof. reflexivity. Qed.

Lemma forest_size_app (xs ys : list Node.t) :
  Node.forest_size (xs ++ ys) = Node.forest_size xs + Node.forest_size ys.
Proof.
  unfold Node.forest_size. rewrite map_app, list_sum_app. reflexivity.
Qed.

Lemma forest_size_step (n : Node.t) (rest : list Node.t) :
  Node.forest_size (n :: rest) = S (Node.forest_size (rest ++ Node.children n)).
Proof.
  rewrite forest_size_cons, forest_size_app, size_unfold. lia.
Qed.

Lemma forest_size_children (forest : list Node.t) :
  Node.forest_size forest = length forest + Node.forest_size (childrenOf forest).
Proof.
  induction forest as [|n ns IH]; [reflexivity|].
  unfold childrenOf in *. cbn [flat_map length].
  rewrite forest_size_cons, forest_size_app, size_unfold, IH. lia.
Qed.

Lemma forest_size_nil_inv (forest : list Node.t) :
  Node.forest_size forest = 0 -> forest = [].
Proof.
  destruct forest as [|n ns]; [reflexivity|].
  rewrite forest_size_cons, size_unfold. discriminate.
Qed.

(** *** The queue loop visits in breadth-first order *)

Lemma visit_nil : visit [] = [].
Proof. reflexivity. Qed.

Lemma visit_cons (n : Node.t) (rest : list Node.t) :
  visit (n :: rest) = n :: visit (rest ++ Node.children n).
Proof.
  unfold visit. rewrite forest_size_step. reflexivity.
Qed.

Lemma visit_app (front back : list Node.t) :
  visit (front ++ back) = front ++ visit (back ++ childrenOf front).
Proof.
  revert back. induction front as [|n ns IH]; intros back.
  - cbn. now rewrite app_nil_r.
  - cbn [app]. rewrite visit_cons, <- app_assoc, IH.
    unfold childrenOf. cbn [flat_map]. now rewrite <- app_assoc.
Qed.

Lemma visit_plies (forest : list Node.t) :
  visit forest = forest ++ visit (childrenOf forest).
Proof.
  rewrite <- (app_nil_r forest) at 1. now rewrite visit_app.
Qed.

Lemma ply_nil (depth : nat) : ply depth [] = [].
Proof. induction depth; [reflexivity | exact IHdepth]. Qed.

Lemma visit_levels (bound : nat) :
  forall forest, Node.forest_size forest <= bound ->
    visit forest = concat (map (fun depth => ply depth forest) (seq 0 bound)).
Proof.
  induction bound as [|bound IH]; intros forest Hsize.
  - rewrite (forest_size_nil_inv forest) by lia. reflexivity.
  - cbn [seq map concat ply]. rewrite <- seq_shift, map_map.
    cbn [ply]. rewrite <- IH, <- visit_plies; [reflexivity|].
    pose proof (forest_size_children forest) as Hch.
    destruct forest; cbn [length] in Hch; [cbn; lia | lia].
Qed.

Lemma visit_breadthFirst (forest : list Node.t) :
  visit forest = breadthFirst forest.
Proof. apply visit_levels. lia. Qed.

Lemma breadthFirst_cons (n : Node.t) (rest : list Node.t) :
  breadthFirst (n :: rest) = n :: breadthFirst (rest ++ Node.children n).
Proof. rewrite <- !visit_breadthFirst. apply visit_cons. Qed.

(** *** It visits every node of the subtrees once *)

Lemma nodes_of_unfold (n : Node.t) :
  Node.nodes_of n = n :: flat_map Node.nodes_of (Node.children n).
Proof. destruct n; reflexivity. Qed.

Lemma nodes_of_plies (forest : list Node.t) :
  Permutation (flat_map Node.nodes_of forest)
              (forest ++ flat_map Node.nodes_of (childrenOf forest)).
Proof.
  induction forest as [|n ns IH]; [constructor|].
  unfold childrenOf in *. cbn [flat_map app].
  rewrite nodes_of_unfold, flat_map_app. cbn [app]. constructor.
  rewrite IH. rewrite !app_assoc. apply Permutation_app_tail, Permutation_app_comm.
Qed.

Lemma visit_all_nodes (bound : nat) :
  forall forest, Node.forest_size forest <= bound ->
    Permutation (visit forest) (flat_map Node.nodes_of forest).
Proof.
  induction bound as [|bound IH]; intros forest Hsize.
  - rewrite (forest_size_nil_inv forest) by lia. constructor.
  - rewrite visit_plies, nodes_of_plies. apply Permutation_app_head, IH.
    pose proof (forest_size_children forest) as Hch.
    destruct forest; cbn [length] in Hch; [cbn; lia | lia].
Qed.

Lemma breadthFirst_all_nodes (forest : list Node.t) :
  Permutation (breadthFirst forest) (flat_map Node.nodes_of forest).
Proof.
  rewrite <- visit_breadthFirst. apply (visit_all_nodes (Node.forest_size forest)). lia.
Qed.

Lemma nodes_of_length (bound : nat) :
  forall forest, Node.forest_size forest <= bound ->
    length (flat_map Node.nodes_of forest) = Node.forest_size forest.
Proof.
  induction bound as [|bound IH]; intros forest Hsize.
  - rewrite (forest_size_nil_inv forest) by lia. reflexivity.
  - rewrite (Permutation_length (nodes_of_plies forest)), length_app.
    pose proof (forest_size_children forest) as Hch.
    rewrite IH; [lia|]. destruct forest; cbn [length] in Hch; [cbn; lia | lia].
Qed.

Lemma breadthFirst_length (forest : list Node.t) :
  length (breadthFirst forest) = Node.forest_size forest.
Proof.
  rewrite (Permutation_length (breadthFirst_all_nodes forest)).
  apply (nodes_of_length (Node.forest_size forest)). lia.
Qed.

(** *** The loops of the source, by the order of visit *)

Lemma whileSearch_visit (p : Node.t -> bool) (fuel : nat) :
  forall stack, Node.forest_size stack = fuel ->
    whileSearch p (S fuel) stack = Some (find p (visitOrder fuel stack)).
Proof.
  induction fuel as [|fuel IH]; intros stack Hsize.
  - rewrite (forest_size_nil_inv stack Hsize). reflexivity.
  - destruct stack as [|n rest]; [reflexivity|].
    rewrite forest_size_step in Hsize. injection Hsize as Hsize.
    cbn [whileSearch visitOrder find]. destruct (p n); [reflexivity|].
    now apply IH.
Qed.

(** The search loop ends by itself: the fuel [runSearch] gives it is enough. *)
Lemma whileSearch_fuel (p : Node.t -> bool) (stack : list Node.t) :
  whileSearch p (S (Node.forest_size stack)) stack = Some (runSearch p stack).
Proof.
  unfold runSearch. now rewrite (whileSearch_visit p _ stack eq_refl).
Qed.

Lemma runSearch_breadthFirst (p : Node.t -> bool) (stack : list Node.t) :
  runSearch p stack = find p (breadthFirst stack).
Proof.
  unfold runSearch. rewrite (whileSearch_visit p _ stack eq_refl).
  now rewrite <- visit_breadthFirst.
Qed.

(** *** Strings *)

Lemma append_nil_r (s : string) : s ^^ EmptyString = s.
Proof. induction s as [|a s IH]; [reflexivity | cbn; now rewrite IH]. Qed.

Lemma append_assoc (s1 s2 s3 : string) : (s1 ^^ s2) ^^ s3 = s1 ^^ s2 ^^ s3.
Proof. induction s1 as [|a s1 IH]; [reflexivity | cbn; now rewrite IH]. Qed.

Lemma length_append (s1 s2 : string) :
  String.length (s1 ^^ s2) = String.length s1 + String.length s2.
Proof. induction s1 as [|a s1 IH]; [reflexivity | cbn; now rewrite IH]. Qed.

Lemma replaceAll_append (c : ascii) (by_ s1 s2 : string) :
  Js.replaceAll c by_ (s1 ^^ s2) = Js.replaceAll c by_ s1 ^^ Js.replaceAll c by_ s2.
Proof.
  induction s1 as [|a s1 IH]; [reflexivity|].
  cbn. destruct (Ascii.eqb a c); rewrite IH; [now rewrite append_assoc | reflexivity].
Qed.

(** The three replacements in sequence do what one pass over the characters
    does: the [&] of an entity written by the first replacement is not
    touched by the later ones, and they write no [<] or [>]. *)
Lemma escapeJsxText_escapeEach (s : string) : escapeJsxText s = escapeEach s.
Proof.
  unfold escapeJsxText. induction s as [|a s IH]; [reflexivity|].
  cbn [Js.replaceAll escapeEach]. unfold escapeChar.
  destruct (Ascii.eqb a "&"%char) eqn:Eamp.
  - rewrite !replaceAll_append, IH. reflexivity.
  - cbn [Js.replaceAll]. destruct (Ascii.eqb a "<"%char) eqn:Elt.
    + rewrite !replaceAll_append, IH. reflexivity.
    + cbn [Js.replaceAll]. destruct (Ascii.eqb a ">"%char) eqn:Egt.
      * rewrite IH. reflexivity.
      * rewrite IH. reflexivity.
Qed.

Lemma hasUnsafe_append (s1 s2 : string) :
  hasUnsafe (s1 ^^ s2) = hasUnsafe s1 || hasUnsafe s2.
Proof.
  induction s1 as [|a s1 IH]; [reflexivity|].
  cbn. now rewrite IH, orb_assoc.
Qed.

Lemma escapeEach_safe (s : string) : hasUnsafe s = false -> escapeEach s = s.
Proof.
  induction s as [|a s IH]; [reflexivity|].
  cbn. unfold isUnsafe, escapeChar. intros H.
  apply orb_false_iff in H as [Ha Hs].
  apply orb_false_iff in Ha as [Ha Hgt]. apply orb_false_iff in Ha as [Hamp Hlt].
  rewrite Hamp, Hlt, Hgt. cbn. now rewrite IH.
Qed.

Lemma escapeChar_length (a : ascii) :
  String.length (escapeChar a) = (if isUnsafe a then 4 else 1) + (if Ascii.eqb a "&"%char then 1 else 0).
Proof.
  unfold escapeChar, isUnsafe.
  destruct (Ascii.eqb a "&"%char); [reflexivity|].
  destruct (Ascii.eqb a "<"%char); [reflexivity|].
  destruct (Ascii.eqb a ">"%char); reflexivity.
Qed.

Lemma escapeEach_length_le (s : string) :
  String.length s <= String.length (escapeEach s).
Proof.
  induction s as [|a s IH]; [cbn; lia|].
  cbn [escapeEach]. rewrite length_append, escapeChar_length. cbn [String.length].
  destruct (isUnsafe a), (Ascii.eqb a "&"%char); lia.
Qed.

Lemma escapeEach_length_lt (s : string) :
  hasUnsafe s = true -> String.length s < String.length (escapeEach s).
Proof.
  induction s as [|a s IH]; [discriminate|].
  cbn [escapeEach hasUnsafe]. rewrite length_append, escapeChar_length.
  cbn [String.length]. pose proof (escapeEach_length_le s) as Hle.
  destruct (isUnsafe a); cbn [orb]; intros H.
  - destruct (Ascii.eqb a "&"%char); lia.
  - specialize (IH H). destruct (Ascii.eqb a "&"%char); lia.
Qed.

Lemma escapeChar_unsafe (a : ascii) :
  isUnsafe a = true -> hasUnsafe (escapeChar a) = true.
Proof.
  unfold escapeChar, isUnsafe.
  destruct (Ascii.eqb a "&"%char); [reflexivity|].
  destruct (Ascii.eqb a "<"%char); [reflexivity|].
  destruct (Ascii.eqb a ">"%char); [reflexivity | discriminate].
Qed.

Lemma escapeEach_unsafe (s : string) :
  hasUnsafe s = true -> hasUnsafe (escapeEach s) = true.
Proof.
  induction s as [|a s IH]; [discriminate|].
  cbn [escapeEach hasUnsafe]. rewrite hasUnsafe_append.
  destruct (isUnsafe a) eqn:Ea; cbn [orb]; intros H.
  - now rewrite (escapeChar_unsafe a Ea).
  - rewrite (IH H). apply orb_true_r.
Qed.

Lemma escapeJsxText_twice (s : string) :
  escapeJsxText (escapeJsxText s) = escapeJsxText s <-> hasUnsafe s = false.
Proof.
  rewrite !escapeJsxText_escapeEach. split.
  - intros Heq. destruct (hasUnsafe s) eqn:Hs; [|reflexivity].
    pose proof (escapeEach_length_lt _ (escapeEach_unsafe s Hs)) as Hlt.
    rewrite Heq in Hlt. lia.
  - intros Hs. now rewrite !(escapeEach_safe s Hs).
Qed.

(** *** Numbers *)

Lemma or_zero_if (x : float) :
  Js.or_zero (Some x) = if Js.truthy_num x then x else 0%float.
Proof. reflexivity. Qed.

Lemma truthy_num_iff (x : float) :
  Js.truthy_num x = true
  <-> PrimFloat.is_zero x = false /\ PrimFloat.is_nan x = false.
Proof.
  unfold Js.truthy_num. rewrite negb_true_iff. apply orb_false_iff.
Qed.

(** Subtracting the positive zero changes no double, not even a zero. *)
Lemma sub_zero (x : float) : (x - 0)%float = x.
Proof.
  apply Prim2SF_inj. rewrite FloatAxioms.sub_spec.
  change (Prim2SF 0%float) with (S754_zero false).
  destruct (Prim2SF x) as [[|]| | |]; reflexivity.
Qed.

(** *** Fills *)

Lemma colorObjToRgba_truthy (show : float -> string) (c : Color.t) (a : Js.value) :
  Js.truthy_str (colorObjToRgba show c a) = true.
Proof. reflexivity. Qed.

Lemma fillToCssColor_truthy (show : float -> string) (fill : option Fill.t) (cssC : string) :
  fillToCssColor show fill = Some cssC -> Js.truthy_str cssC = true.
Proof.
  destruct fill as [fill|]; [|discriminate]. cbn.
  destruct (Fill.type fill =? "SOLID")%string; [|discriminate].
  destruct (Fill.color fill); [|discriminate].
  intros H. injection H as <-. reflexivity.
Qed.

Lemma nodeBackground_first (show : float -> string) (node : Node.t)
  (fill : option Fill.t) (rest : list (option Fill.t)) :
  Node.fills node = fill :: rest ->
  nodeBackground show node = fillToCssColor show fill.
Proof.
  intros Hfills. unfold nodeBackground. rewrite Hfills.
  destruct (fillToCssColor show fill) as [cssC|] eqn:Hc; [|reflexivity].
  now rewrite (fillToCssColor_truthy show fill cssC Hc).
Qed.

(** *** The entries of [styleParts] *)

Lemma nodeFragment_styleParts (show : float -> string) (node : Node.t)
  (frameBox : option Box.t) :
  styleParts (nodeFragment show node frameBox)
  = geometryParts show (nodeLeft node frameBox) (nodeTop node frameBox)
                  (nodeWidth node) (nodeHeight node)
    ++ optionalPart (option_map backgroundPart (nodeBackground show node))
    ++ optionalPart
         (if (Node.type node =? "TEXT")%string
          then option_map (fontSizePart show) (nodeFontSize node) else None).
Proof.
  unfold nodeFragment.
  destruct (nodeBackground show node), (Node.type node =? "TEXT")%string;
    try destruct (nodeFontSize node); cbn [styleParts option_map optionalPart];
    rewrite <- ?app_assoc, ?app_nil_r; reflexivity.
Qed.

Lemma geometryParts_no_background (show : float -> string) (l t w h : float) :
  existsb isBackgroundPart (geometryParts show l t w h) = false.
Proof. reflexivity. Qed.

Lemma geometryParts_no_fontSize (show : float -> string) (l t w h : float) :
  existsb isFontSizePart (geometryParts show l t w h) = false.
Proof. reflexivity. Qed.

Lemma backgroundPart_is (bg : string) : isBackgroundPart (backgroundPart bg) = true.
Proof.
  unfold isBackgroundPart, backgroundPart. cbn. now destruct (bg ^^ "'").
Qed.

Lemma fontSizePart_is (show : float -> string) (q : float) :
  isFontSizePart (fontSizePart show q) = true.
Proof.
  unfold isFontSizePart, fontSizePart. cbn. now destruct (show q ^^ "px").
Qed.

Lemma declaresBackground_iff (show : float -> string) (node : Node.t)
  (frameBox : option Box.t) :
  declaresBackground (nodeFragment show node frameBox)
  = match nodeBackground show node with Some _ => true | None => false end.
Proof.
  unfold declaresBackground. rewrite nodeFragment_styleParts, !existsb_app.
  rewrite geometryParts_no_background.
  destruct (nodeBackground show node) as [bg|];
    destruct (Node.type node =? "TEXT")%string;
    try destruct (nodeFontSize node);
    cbn [option_map optionalPart existsb orb];
    rewrite ?backgroundPart_is; reflexivity.
Qed.

Lemma declaresFontSize_iff (show : float -> string) (node : Node.t)
  (frameBox : option Box.t) :
  declaresFontSize (nodeFragment show node frameBox)
  = if (Node.type node =? "TEXT")%string
    then match nodeFontSize node with Some _ => true | None => false end
    else false.
Proof.
  unfold declaresFontSize. rewrite nodeFragment_styleParts, !existsb_app.
  rewrite geometryParts_no_fontSize.
  destruct (nodeBackground show node) as [bg|];
    destruct (Node.type node =? "TEXT")%string;
    try destruct (nodeFontSize node);
    cbn [option_map optionalPart existsb orb];
    rewrite ?fontSizePart_is; reflexivity.
Qed.

(** *** The traversal loop *)

Lemma whileTraverse_cons (show : float -> string) (frameBox : option Box.t)
  (fuel : nat) (n : Node.t) (rest : list Node.t) (jsxParts : list string) :
  whileTraverse show frameBox (S fuel) (n :: rest) jsxParts
  = whileTraverse show frameBox fuel (rest ++ Node.children n)
                  (jsxParts ++ [nodeToJsx show n frameBox]).
Proof. reflexivity. Qed.

Lemma whileTraverse_visit (show : float -> string) (frameBox : option Box.t) (fuel : nat) :
  forall stack jsxParts, Node.forest_size stack = fuel ->
    whileTraverse show frameBox (S fuel) stack jsxParts
    = Some (jsxParts ++ map (fun n => nodeToJsx show n frameBox) (visitOrder fuel stack)).
Proof.
  induction fuel as [|fuel IH]; intros stack jsxParts Hsize.
  - rewrite (forest_size_nil_inv stack Hsize). cbn. now rewrite app_nil_r.
  - destruct stack as [|n rest]; [cbn; now rewrite app_nil_r|].
    rewrite forest_size_step in Hsize. injection Hsize as Hsize.
    rewrite whileTraverse_cons, (IH _ _ Hsize).
    cbn [visitOrder map]. now rewrite <- app_assoc.
Qed.

(** The traversal loop ends by itself: the fuel [traverseParts] gives it is
    enough. *)
Lemma whileTraverse_fuel (show : float -> string) (nodes : list Node.t)
  (frameBox : option Box.t) :
  whileTraverse show frameBox (S (Node.forest_size nodes)) nodes []
  = Some (traverseParts show nodes frameBox).
Proof.
  unfold traverseParts. now rewrite (whileTraverse_visit show frameBox _ nodes [] eq_refl).
Qed.

Lemma traverseParts_breadthFirst (show : float -> string) (nodes : list Node.t)
  (frameBox : option Box.t) :
  traverseParts show nodes frameBox
  = map (fun n => nodeToJsx show n frameBox) (breadthFirst nodes).
Proof.
  unfold traverseParts.
  rewrite (whileTraverse_visit show frameBox _ nodes [] eq_refl).
  now rewrite <- visit_breadthFirst.
Qed.

(** *** The first tier of the frame search *)

Lemma firstCandidate_find (children : list Node.t) :
  firstCandidate children = find isCandidate children.
Proof.
  induction children as [|child rest IH]; [reflexivity|].
  cbn. now rewrite IH.
Qed.

Lemma find_app_first {A : Type} (p : A -> bool) (xs ys : list A) :
  find p (xs ++ ys) = match find p xs with Some x => Some x | None => find p ys end.
Proof.
  induction xs as [|x xs IH]; [reflexivity|].
  cbn. destruct (p x); [reflexivity | exact IH].
Qed.

Lemma firstCandidateOfPages_find (pages : list Node.t) :
  firstCandidateOfPages pages = find isCandidate (childrenOf pages).
Proof.
  induction pages as [|page rest IH]; [reflexivity|].
  unfold childrenOf in *. cbn [firstCandidateOfPages flat_map].
  now rewrite find_app_first, firstCandidate_find, IH.
Qed.

Lemma truthy_str_nonempty (s : string) : s <> EmptyString -> Js.truthy_str s = true.
Proof. destruct s; [contradiction | reflexivity]. Qed.

(** ** The claims of the specification *)

(** *** Geometry *)

(** C1, as amended.  The first five entries of a fragment's [styleParts]
    are the absolute positioning and [left], [top], [width], [height].  With
    an [absoluteBoundingBox] these are [Math.round(box.x - origin.x)],
    [Math.round(box.y - origin.y)], [Math.round(box.width)] and
    [Math.round(box.height)], in the arithmetic of the doubles and with
    [Math.round] sending half-way cases up; an origin coordinate that is
    zero or NaN subtracts nothing, and a width or height that is zero or NaN
    gives [0].  Without a box the zero rectangle stands in: [width] and
    [height] are [0], and [left] and [top] are [Math.round(0 - origin.x)]
    and [Math.round(0 - origin.y)], [0] for an origin coordinate that is
    zero or NaN. *)
Theorem nodeToJsx_geometry (show : float -> string) (node : Node.t) (origin : Box.t) :
  firstn 5 (styleParts (nodeFragment show node (Some origin)))
  = [ "position: 'absolute'";
      "left: " ^^ show (nodeLeft node (Some origin)) ^^ "px";
      "top: " ^^ show (nodeTop node (Some origin)) ^^ "px";
      "width: " ^^ show (nodeWidth node) ^^ "px";
      "height: " ^^ show (nodeHeight node) ^^ "px" ]
  /\ (forall box, Node.absoluteBoundingBox node = Some box ->
        nodeLeft node (Some origin)
        = (if Js.truthy_num (Box.x origin)
           then Js.Math_round (Box.x box - Box.x origin)
           else Js.Math_round (Box.x box))
        /\ nodeTop node (Some origin)
           = (if Js.truthy_num (Box.y origin)
              then Js.Math_round (Box.y box - Box.y origin)
              else Js.Math_round (Box.y box))
        /\ nodeWidth node
           = (if Js.truthy_num (Box.width box)
              then Js.Math_round (Box.width box) else 0%float)
        /\ nodeHeight node
           = (if Js.truthy_num (Box.height box)
              then Js.Math_round (Box.height box) else 0%float))
  /\ (Node.absoluteBoundingBox node = None ->
        nodeLeft node (Some origin)
        = (if Js.truthy_num (Box.x origin)
           then Js.Math_round (0%float - Box.x origin) else 0%float)
        /\ nodeTop node (Some origin)
           = (if Js.truthy_num (Box.y origin)
              then Js.Math_round (0%float - Box.y origin) else 0%float)
        /\ nodeWidth node = 0%float
        /\ nodeHeight node = 0%float)
  /\ (forall x : float,
        Js.truthy_num x = true
        <-> PrimFloat.is_zero x = false /\ PrimFloat.is_nan x = false).
Proof.
  split; [now rewrite nodeFragment_styleParts | split; [|split]].
  - intros box Hbox. unfold nodeLeft, nodeTop, nodeWidth, nodeHeight, nodeBox.
    rewrite Hbox. cbn [option_map]. rewrite !or_zero_if.
    destruct (Js.truthy_num (Box.x origin)), (Js.truthy_num (Box.y origin)),
      (Js.truthy_num (Box.width box)), (Js.truthy_num (Box.height box));
      rewrite ?sub_zero; repeat split.
  - intros Hbox. unfold nodeLeft, nodeTop, nodeWidth, nodeHeight, nodeBox.
    rewrite Hbox. cbn [option_map]. rewrite !or_zero_if.
    destruct (Js.truthy_num (Box.x origin)), (Js.truthy_num (Box.y origin));
      repeat split.
  - exact truthy_num_iff.
Qed.

Lemma nodeToJsx_geometry_witness :
  Node.absoluteBoundingBox ex_text = Some (Box.mk 10 20 50 20)
  /\ nodeLeft ex_text (Some (frameBoxOf ex_frame)) = 10%float
  /\ nodeTop ex_text (Some (frameBoxOf ex_frame)) = 20%float
  /\ nodeWidth ex_text = 50%float
  /\ nodeHeight ex_text = 20%float.
Proof.
  split; [reflexivity|].
  exact (proj1 (proj2 (nodeToJsx_geometry decimal ex_text (frameBoxOf ex_frame)))
           (Box.mk 10 20 50 20) eq_refl).
Defined.

(** C1 as stated fails twice.  A node without a box, in a frame whose
    origin is [(10, 20)], gets [left: -10px] and [top: -20px], not zeros.
    And for a box at [x = -2.5] the code rounds the half-way case up, to
    [-2], where the rounding of the specification, half away from zero, gives
    [-3]. *)
Lemma nodeToJsx_geometry_boxless_not_zero :
  (Node.absoluteBoundingBox ex_boxless = None
   /\ nodeLeft ex_boxless (Some ex_origin) = (-10)%float
   /\ nodeTop ex_boxless (Some ex_origin) = (-20)%float
   /\ nodeToJsx decimal ex_boxless (Some ex_origin)
      = "<div style={{position: 'absolute', left: -10px, top: -20px, width: 0px, height: 0px}}></div>"
   /\ ~ (nodeLeft ex_boxless (Some ex_origin) = 0%float
         /\ nodeTop ex_boxless (Some ex_origin) = 0%float
         /\ nodeWidth ex_boxless = 0%float
         /\ nodeHeight ex_boxless = 0%float))
  /\ (Node.absoluteBoundingBox ex_half = Some (Box.mk (-2.5) 0 5 5)
      /\ nodeLeft ex_half (Some Box.zero) = (-2)%float
      /\ roundHalfAwayFromZero (-2.5 - 0) = (-3)%float
      /\ nodeLeft ex_half (Some Box.zero) <> roundHalfAwayFromZero (-2.5 - 0)).
Proof.
  split.
  - repeat split; try reflexivity. intros [H _].
    assert (Hsign : Prim2SF (nodeLeft ex_boxless (Some ex_origin)) = Prim2SF 0%float)
      by now rewrite H.
    discriminate Hsign.
  - repeat split; try reflexivity. intros H.
    assert (Hsign : Prim2SF (nodeLeft ex_half (Some Box.zero))
                    = Prim2SF (roundHalfAwayFromZero (-2.5 - 0)))
      by now rewrite H.
    discriminate Hsign.
Qed.

(** *** Colors and backgrounds *)



(** C10.  A [SOLID] fill without a [color] gives no color, and a node whose
    first fill it is gets no background entry in its fragment. *)
Theorem fillToCssColor_solid_without_color (show : float -> string) (fill : Fill.t) :
  Fill.type fill = "SOLID" -> Fill.color fill = None ->
  fillToCssColor show (Some fill) = None
  /\ forall (node : Node.t) (rest : list (option Fill.t)) (frameBox : option Box.t),
       Node.fills node = Some fill :: rest ->
       nodeBackground show node = None
       /\ declaresBackground (nodeFragment show node frameBox) = false
       /\ forall bg, ~ In (backgroundPart bg) (styleParts (nodeFragment show node frameBox)).
Proof.
  intros Htype Hcolor.
  assert (Hnone : fillToCssColor show (Some fill) = None).
  { unfold fillToCssColor. now rewrite Htype, Hcolor. }
  split; [exact Hnone|]. intros node rest frameBox Hfills.
  assert (Hbg : nodeBackground show node = None).
  { now rewrite (nodeBackground_first show node _ _ Hfills). }
  assert (Hdecl : declaresBackground (nodeFragment show node frameBox) = false).
  { now rewrite declaresBackground_iff, Hbg. }
  repeat split; [exact Hbg | exact Hdecl |].
  intros bg Hin. unfold declaresBackground in Hdecl.
  rewrite <- not_true_iff_false in Hdecl. apply Hdecl.
  apply existsb_exists. exists (backgroundPart bg). split; [exact Hin|].
  apply backgroundPart_is.
Qed.

Lemma fillToCssColor_solid_without_color_witness :
  Fill.type ex_colorless = "SOLID" /\ Fill.color ex_colorless = None
  /\ fillToCssColor decimal (Some ex_colorless) = None.
Proof.
  split; [reflexivity|]. split; [reflexivity|].
  exact (proj1 (fillToCssColor_solid_without_color decimal ex_colorless eq_refl eq_refl)).
Defined.

(** C2, as amended.  Only the first fill of the sequence is looked at: the
    fragment declares a background exactly when that first fill is a [SOLID]
    fill with a color, and the background is then that fill's color; the
    fills after the first are ignored, and a first fill without a color
    means no background whatever follows it. *)
Theorem nodeToJsx_background (show : float -> string) (node : Node.t)
  (frameBox : option Box.t) :
  (forall (fill : option Fill.t) (rest : list (option Fill.t)),
      Node.fills node = fill :: rest ->
      nodeBackground show node = fillToCssColor show fill
      /\ (forall cssC, fillToCssColor show fill = Some cssC ->
            In ("background: '" ^^ cssC ^^ "'")
               (styleParts (nodeFragment show node frameBox)))
      /\ (fillToCssColor show fill = None ->
            declaresBackground (nodeFragment show node frameBox) = false))
  /\ (Node.fills node = [] ->
        declaresBackground (nodeFragment show node frameBox) = false).
Proof.
  split.
  - intros fill rest Hfills.
    pose proof (nodeBackground_first show node fill rest Hfills) as Hbg.
    split; [exact Hbg | split].
    + intros cssC Hc. rewrite nodeFragment_styleParts, Hbg, Hc.
      apply in_or_app. right. apply in_or_app. left. now left.
    + intros Hc. now rewrite declaresBackground_iff, Hbg, Hc.
  - intros Hfills. rewrite declaresBackground_iff. unfold nodeBackground.
    now rewrite Hfills.
Qed.

Lemma nodeToJsx_background_witness :
  Node.fills ex_two_fills = [Some ex_gradient; Some ex_red]
  /\ fillToCssColor decimal (Some ex_gradient) = None
  /\ declaresBackground (nodeFragment decimal ex_two_fills None) = false.
Proof.
  split; [reflexivity|]. split; [reflexivity|].
  exact (proj2 (proj2 (proj1 (nodeToJsx_background decimal ex_two_fills None)
                         (Some ex_gradient) [Some ex_red] eq_refl)) eq_refl).
Defined.

(** C2 as stated fails: the second fill of [ex_two_fills] is a [SOLID] red,
    the first [SOLID] fill of the sequence, yet the gradient before it
    leaves the fragment without a background. *)
Lemma nodeToJsx_background_after_gradient :
  firstSolidColor decimal (Node.fills ex_two_fills) = Some "rgba(255, 0, 0, 1)"
  /\ declaresBackground (nodeFragment decimal ex_two_fills None) = false
  /\ nodeToJsx decimal ex_two_fills None
     = "<div style={{position: 'absolute', left: 0px, top: 0px, width: 10px, height: 10px}}></div>".
Proof. repeat split. Qed.

(** *** Escaping *)

(** C3, as amended.  Escaping ["A & B < C"] gives ["A &amp; B &lt; C"];
    one application never escapes the [&] of an entity it has written, so it
    equals the substitution done character by character; but applying it
    again escapes those [&] anew, so escaping twice equals escaping once
    exactly for the strings without [&], [<] and [>]. *)
Theorem escapeJsxText_order :
  escapeJsxText "A & B < C" = "A &amp; B &lt; C"
  /\ (forall s, escapeJsxText s = escapeEach s)
  /\ (forall s, escapeJsxText (escapeJsxText s) = escapeJsxText s
                <-> hasUnsafe s = false).
Proof.
  split; [reflexivity | split].
  - exact escapeJsxText_escapeEach.
  - exact escapeJsxText_twice.
Qed.

Lemma escapeJsxText_order_witness :
  hasUnsafe "Hi there" = false
  /\ escapeJsxText (escapeJsxText "Hi there") = escapeJsxText "Hi there".
Proof.
  split; [reflexivity|].
  exact (proj2 (proj2 (proj2 escapeJsxText_order) "Hi there") eq_refl).
Defined.

(** C3 as stated fails: escaping the escaped form of ["A & B < C"] escapes
    the ampersands of [&amp;] and [&lt;] again. *)
Lemma escapeJsxText_not_idempotent :
  escapeJsxText (escapeJsxText "A & B < C") = "A &amp;amp; B &amp;lt; C"
  /\ escapeJsxText (escapeJsxText "A & B < C") <> escapeJsxText "A & B < C".
Proof. split; [reflexivity | discriminate]. Qed.

(** *** Flattening *)

(** C5.  The flattener emits the fragments of the nodes in breadth-first
    order, plies one after the other and children in listed order; these are
    all the nodes of the subtrees, each once, whatever their type; and for
    [A(children: [B, C(children: [D])])] the fragments of [A]'s children are
    those of [B], [C], [D], in this order. *)
Theorem traverseAndGenerate_breadthFirst (show : float -> string)
  (nodes : list Node.t) (frameBox : option Box.t) :
  traverseParts show nodes frameBox
  = map (fun n => nodeToJsx show n frameBox) (breadthFirst nodes)
  /\ traverseAndGenerate show nodes frameBox
     = Js.join nl (map (fun n => nodeToJsx show n frameBox) (breadthFirst nodes))
  /\ Permutation (breadthFirst nodes) (flat_map Node.nodes_of nodes)
  /\ length (traverseParts show nodes frameBox) = Node.forest_size nodes
  /\ (forall A B C D : Node.t,
        let d := withChildren D [] in
        let c := withChildren C [d] in
        let b := withChildren B [] in
        let a := withChildren A [b; c] in
        traverseParts show (Node.children a) frameBox
        = [nodeToJsx show b frameBox; nodeToJsx show c frameBox;
           nodeToJsx show d frameBox]).
Proof.
  split; [apply traverseParts_breadthFirst | split].
  { unfold traverseAndGenerate. now rewrite traverseParts_breadthFirst. }
  split; [apply breadthFirst_all_nodes | split].
  { now rewrite traverseParts_breadthFirst, length_map, breadthFirst_length. }
  intros A B C D d c b a. rewrite traverseParts_breadthFirst.
  cbn [a Node.children withChildren].
  rewrite !breadthFirst_cons. cbn [b c d Node.children withChildren app].
  rewrite !breadthFirst_cons. reflexivity.
Qed.

(** *** Locating the frame *)

(** C6.  Without a target id, on a document whose root is not itself a
    [FRAME]: the result is the first child of a page, pages in document order
    and children in listed order, whose type is one of [FRAME], [COMPONENT],
    [INSTANCE], [GROUP], [RECTANGLE]; when no page has one, the first node of
    type [FRAME] in the breadth-first order of the whole tree; when there is
    none either, not-found. *)
Theorem findFrameNode_without_target (doc : Node.t) :
  Node.type doc <> "FRAME" ->
  findFrameNode doc None
  = match find isCandidate (flat_map Node.children (Node.children doc)) with
    | Some child => Some child
    | None => find isFrame (breadthFirst [doc])
    end.
Proof.
  intros Hroot. unfold findFrameNode, findFirstFrame.
  rewrite firstCandidateOfPages_find, runSearch_breadthFirst.
  rewrite breadthFirst_cons. cbn [app find]. unfold isFrame at 2.
  apply String.eqb_neq in Hroot. now rewrite Hroot.
Qed.

Lemma findFrameNode_without_target_witness :
  Node.type ex_doc <> "FRAME" /\ findFrameNode ex_doc None = Some ex_frame.
Proof.
  split; [discriminate|].
  exact (findFrameNode_without_target ex_doc ltac:(discriminate)).
Defined.

(** C7, as amended.  With a non-empty target id, the result is the first
    node with that id in the breadth-first order of the whole tree from the
    root, not-found when there is none; so a node that is the only one with
    that id is the result.  An empty target id counts as none given. *)
Theorem findFrameNode_with_target (doc : Node.t) :
  (forall target : string,
      target <> EmptyString ->
      findFrameNode doc (Some target) = find (hasId target) (breadthFirst [doc])
      /\ (forall n : Node.t,
            In n (Node.nodes_of doc) -> Node.id n = target ->
            (forall m, In m (Node.nodes_of doc) -> Node.id m = target -> m = n) ->
            findFrameNode doc (Some target) = Some n))
  /\ findFrameNode doc (Some EmptyString) = findFrameNode doc None.
Proof.
  split; [|reflexivity]. intros target Htarget.
  assert (Hfind : findFrameNode doc (Some target)
                  = find (hasId target) (breadthFirst [doc])).
  { unfold findFrameNode. rewrite (truthy_str_nonempty target Htarget).
    apply runSearch_breadthFirst. }
  split; [exact Hfind|]. intros n Hin Hid Hunique. rewrite Hfind.
  assert (Hall : forall m, In m (breadthFirst [doc]) <-> In m (Node.nodes_of doc)).
  { intros m. pose proof (breadthFirst_all_nodes [doc]) as Hperm.
    cbn [flat_map] in Hperm. rewrite app_nil_r in Hperm.
    split; apply Permutation_in; [exact Hperm | now symmetry]. }
  destruct (find (hasId target) (breadthFirst [doc])) as [m|] eqn:Hm.
  - apply find_some in Hm as [Hmin Hmid]. f_equal.
    apply Hunique; [now apply Hall | now apply String.eqb_eq].
  - apply Hall in Hin. apply (find_none _ _ Hm) in Hin.
    unfold hasId in Hin. apply String.eqb_neq in Hin. contradiction.
Qed.

Lemma findFrameNode_with_target_witness :
  "1:3" <> EmptyString /\ findFrameNode ex_doc (Some "1:3") = Some ex_text.
Proof.
  split; [discriminate|].
  exact (proj1 (proj1 (findFrameNode_with_target ex_doc) "1:3" ltac:(discriminate))).
Defined.

(** C7 as stated fails: the empty string given as target id is taken for no
    id at all, so the search by type runs and returns the frame, although no
    node has the empty id. *)
Lemma findFrameNode_empty_target :
  find (hasId EmptyString) (breadthFirst [ex_doc]) = None
  /\ findFrameNode ex_doc (Some EmptyString) = Some ex_frame.
Proof. split; reflexivity. Qed.

(** *** Text *)

(** C8, as amended.  The body of a [TEXT] node's fragment is the node's
    [characters] (the empty string when absent) with [&], [<], [>] replaced
    by their entity forms, [&] first; and when [style.fontSize] is present
    and neither zero nor NaN the fragment declares that font size.  A font
    size of zero, or NaN, is not declared. *)
Theorem nodeToJsx_text (show : float -> string) (node : Node.t)
  (frameBox : option Box.t) :
  Node.type node = "TEXT" ->
  let characters :=
    match Node.characters node with Some s => s | None => EmptyString end in
  body (nodeFragment show node frameBox) = escapeJsxText characters
  /\ escapeJsxText characters = escapeEach characters
  /\ nodeToJsx show node frameBox
     = "<div style={{"
         ^^ Js.join ", " (styleParts (nodeFragment show node frameBox))
         ^^ "}}>" ^^ escapeEach characters ^^ "</div>"
  /\ (forall (style : Style.t) (size : float),
        Node.style node = Some style -> Style.fontSize style = Some size ->
        PrimFloat.is_zero size = false -> PrimFloat.is_nan size = false ->
        In ("fontSize: " ^^ show size ^^ "px")
           (styleParts (nodeFragment show node frameBox)))
  /\ (forall (style : Style.t) (size : float),
        Node.style node = Some style -> Style.fontSize style = Some size ->
        PrimFloat.is_zero size = true \/ PrimFloat.is_nan size = true ->
        declaresFontSize (nodeFragment show node frameBox) = false).
Proof.
  intros Htype characters.
  assert (Hbody : body (nodeFragment show node frameBox) = escapeJsxText characters).
  { unfold nodeFragment. rewrite Htype. reflexivity. }
  split; [exact Hbody | split; [apply escapeJsxText_escapeEach | split]].
  { unfold nodeToJsx, renderFragment. now rewrite Hbody, escapeJsxText_escapeEach. }
  split.
  - intros style size Hstyle Hsize Hzero Hnan.
    rewrite nodeFragment_styleParts, Htype. unfold nodeFontSize.
    rewrite Hstyle, Hsize, (proj2 (truthy_num_iff size) (conj Hzero Hnan)).
    apply in_or_app. right. apply in_or_app. right. now left.
  - intros style size Hstyle Hsize Hzero.
    rewrite declaresFontSize_iff, Htype. unfold nodeFontSize.
    rewrite Hstyle, Hsize. unfold Js.truthy_num.
    destruct Hzero as [Hzero | Hnan]; rewrite ?Hzero, ?Hnan, ?orb_true_r; reflexivity.
Qed.

Lemma nodeToJsx_text_witness :
  Node.type ex_text = "TEXT"
  /\ body (nodeFragment decimal ex_text None) = "Hi"
  /\ In "fontSize: 16px" (styleParts (nodeFragment decimal ex_text None)).
Proof.
  split; [reflexivity|]. split.
  - exact (proj1 (nodeToJsx_text decimal ex_text None eq_refl)).
  - refine (proj1 (proj2 (proj2 (proj2 (nodeToJsx_text decimal ex_text None eq_refl))))
              (Style.mk (Some 16%float)) 16%float eq_refl eq_refl eq_refl eq_refl).
Defined.

(** C8 as stated fails: a text node whose [style.fontSize] is present and
    is [0] gets no font size in its fragment. *)
Lemma nodeToJsx_text_zero_fontSize :
  Node.type ex_zero_text = "TEXT"
  /\ Node.style ex_zero_text = Some (Style.mk (Some 0%float))
  /\ declaresFontSize (nodeFragment decimal ex_zero_text None) = false
  /\ nodeToJsx decimal ex_zero_text None
     = "<div style={{position: 'absolute', left: 0px, top: 0px, width: 50px, height: 20px}}>Hi</div>".
Proof. repeat split. Qed.

(** *** Assembling the files *)

(** C4, as amended.  When the locator finds a frame the result is the full
    mapping built from it.  When it does not, the fallback node is the first
    child of the first page, that is, of the document's first child: if it is
    there, the result is the reduced mapping built from it, the root
    component and a readme with the fallback node's name; and the error
    [No frame found in file.] is thrown exactly when the locator finds
    nothing and there is no such fallback node.  What is returned has the
    keys of the full or of the reduced mapping, nothing in between. *)
Theorem generateFilesFromFigmaFile_outcome (show : float -> string) (doc : Node.t)
  (nodeId : option string) :
  let result := generateFilesFromFigmaFile show doc nodeId in
  (forall frame : Node.t,
      findFrameNode doc nodeId = Some frame ->
      result = Returned [ ("App.jsx", reactAppFromFrame show frame);
                          ("index.html", indexHtml);
                          ("package.json", packageJson);
                          ("README.md", fullReadme) ])
  /\ (forall (page fallback : Node.t) (pages rest : list Node.t),
        findFrameNode doc nodeId = None ->
        Node.children doc = page :: pages ->
        Node.children page = fallback :: rest ->
        result = Returned
                   [ ("App.jsx", reactAppFromFrame show fallback);
                     ("README.md",
                      "Generated from Figma file: fallback frame ("
                        ^^ showName (Node.name fallback) ^^ ")") ])
  /\ (result = Thrown "No frame found in file."
      <-> findFrameNode doc nodeId = None
          /\ (Node.children doc = []
              \/ exists page pages,
                   Node.children doc = page :: pages /\ Node.children page = []))
  /\ (forall files : list (string * string),
        result = Returned files ->
        map fst files = ["App.jsx"; "index.html"; "package.json"; "README.md"]
        \/ map fst files = ["App.jsx"; "README.md"]).
Proof.
  intros result. unfold result, generateFilesFromFigmaFile, fallbackNode.
  split; [|split; [|split]].
  - intros frame Hframe. now rewrite Hframe.
  - intros page fallback pages rest Hnone Hdoc Hpage.
    now rewrite Hnone, Hdoc, Hpage.
  - destruct (findFrameNode doc nodeId) as [frame|].
    { split; [discriminate | intros [H _]; discriminate]. }
    destruct (Node.children doc) as [|page pages].
    { split; [intros _; split; [reflexivity | now left] | reflexivity]. }
    destruct (Node.children page) as [|fallback rest] eqn:Hpage.
    + split; [|reflexivity]. intros _. split; [reflexivity|].
      right. exists page, pages. now split.
    + split; [discriminate|]. intros [_ [H | (page' & pages' & Heq & Hnil)]].
      * discriminate.
      * injection Heq as <- <-. rewrite Hpage in Hnil. discriminate.
  - intros files. destruct (findFrameNode doc nodeId) as [frame|].
    { intros H. injection H as <-. now left. }
    destruct (Node.children doc) as [|page pages]; [discriminate|].
    destruct (Node.children page) as [|fallback rest]; [discriminate|].
    intros H. injection H as <-. now right.
Qed.

Lemma generateFilesFromFigmaFile_outcome_witness :
  findFrameNode ex_doc None = Some ex_frame
  /\ generateFilesFromFigmaFile decimal ex_doc None
     = Returned [ ("App.jsx", reactAppFromFrame decimal ex_frame);
                  ("index.html", indexHtml);
                  ("package.json", packageJson);
                  ("README.md", fullReadme) ].
Proof.
  split; [reflexivity|].
  exact (proj1 (generateFilesFromFigmaFile_outcome decimal ex_doc None) ex_frame eq_refl).
Defined.

(** C4 as stated fails: in [ex_text_doc] the locator finds nothing and the
    first page's first child has no child, so the fallback node of the claim
    is absent; the generator still returns the reduced mapping, built from
    the first page's first child itself, and throws nothing. *)
Lemma generateFilesFromFigmaFile_fallback_level :
  findFrameNode ex_text_doc None = None
  /\ firstChildOfFirstPagesFirstChild ex_text_doc = None
  /\ generateFilesFromFigmaFile decimal ex_text_doc None
     = Returned [ ("App.jsx", reactAppFromFrame decimal ex_lone_text);
                  ("README.md", "Generated from Figma file: fallback frame (Note)") ]
  /\ generateFilesFromFigmaFile decimal ex_text_doc None
     <> Thrown "No frame found in file.".
Proof. repeat split. discriminate. Qed.

(** ** The end-to-end scenarios of the specification *)

(** Scenario 1: the root component is 400 by 300 and the text fragment is
    placed at [(10, 20)], 50 by 20, with font size 16 and body [Hi]. *)
Example scenario_full_set :
  generateFilesFromFigmaFile decimal ex_doc None
  = Returned [ ("App.jsx", reactAppFromFrame decimal ex_frame);
               ("index.html", indexHtml);
               ("package.json", packageJson);
               ("README.md", fullReadme) ]
  /\ traverseParts decimal (Node.children ex_frame) (Some (frameBoxOf ex_frame))
     = ["<div style={{position: 'absolute', left: 10px, top: 20px, width: 50px, height: 20px, fontSize: 16px}}>Hi</div>"].
Proof. split; reflexivity. Qed.

(** Scenario 2: nothing frame-like and no child on the first page. *)
Example scenario_no_frame :
  generateFilesFromFigmaFile decimal (leaf "0:0" "DOCUMENT" None) None
  = Thrown "No frame found in file.".
Proof. reflexivity. Qed.

(** Scenario 3: a target three levels deep is found, and the fragments are
    placed relative to its own box. *)
Example scenario_nested_target :
  findFrameNode ex_doc (Some "1:3") = Some ex_text
  /\ frameBoxOf ex_text = Box.mk 10 20 50 20.
Proof. split; reflexivity. Qed.

(** The arithmetic is that of the doubles: [1132.79 - 68.29] is a double
    just above [1064.5] and rounds to [1065]; [0.00196078431372549 * 255] is
    the double [0.5] and rounds to [1]; a tie left of zero goes up, and a
    result between [-0.5] and [0] is the negative zero, printed as [0]. *)
Example double_arithmetic :
  nodeLeft (leaf "1:9" "RECTANGLE" (Some (Box.mk 1132.79 0 1 1)))
           (Some (Box.mk 68.29 0 1 1)) = 1065%float
  /\ fillToCssColor decimal
       (Some (Fill.mk "SOLID"
                (Some (Color.mk (Some 0.00196078431372549%float) None None))
                Js.Undefined))
     = Some "rgba(1, 0, 0, 1)"
  /\ Js.Math_round (-2.5) = (-2)%float
  /\ Js.Math_round (-0.3) = (-0)%float
  /\ decimal (Js.Math_round (-0.3)) = "0".
Proof. repeat split. Qed.

(** ** Further properties of the code *)

(** *** Escaping *)

Lemma hasAngle_append (s1 s2 : string) :
  hasAngle (s1 ^^ s2) = hasAngle s1 || hasAngle s2.
Proof.
  induction s1 as [|a s1 IH]; [reflexivity|].
  cbn. now rewrite IH, !orb_assoc.
Qed.

Lemma escapeChar_no_angle (a : ascii) : hasAngle (escapeChar a) = false.
Proof.
  unfold escapeChar.
  destruct (Ascii.eqb a "&"%char); [reflexivity|].
  destruct (Ascii.eqb a "<"%char) eqn:Elt; [reflexivity|].
  destruct (Ascii.eqb a ">"%char) eqn:Egt; [reflexivity|].
  cbn. now rewrite Elt, Egt.
Qed.

Lemma escapeEach_no_angle (s : string) : hasAngle (escapeEach s) = false.
Proof.
  induction s as [|a s IH]; [reflexivity|].
  cbn [escapeEach]. now rewrite hasAngle_append, escapeChar_no_angle, IH.
Qed.

(** X1.  The escaped text holds no [<] and no [>], whatever the input. *)
Theorem escapeJsxText_no_angle (s : string) : hasAngle (escapeJsxText s) = false.
Proof. rewrite escapeJsxText_escapeEach. apply escapeEach_no_angle. Qed.

Lemma unescapeEach_escapeEach (s : string) : unescapeEach (escapeEach s) = s.
Proof.
  induction s as [|a s IH]; [reflexivity|].
  cbn [escapeEach]. unfold escapeChar.
  destruct (Ascii.eqb a "&"%char) eqn:Eamp.
  { apply Ascii.eqb_eq in Eamp. subst a. cbn. now rewrite IH. }
  destruct (Ascii.eqb a "<"%char) eqn:Elt.
  { apply Ascii.eqb_eq in Elt. subst a. cbn. now rewrite IH. }
  destruct (Ascii.eqb a ">"%char) eqn:Egt.
  { apply Ascii.eqb_eq in Egt. subst a. cbn. now rewrite IH. }
  cbn [String.append unescapeEach]. now rewrite Eamp, IH.
Qed.

(** X2.  Escaping loses nothing: two texts with the same escaped form are
    the same text. *)
Theorem escapeJsxText_injective (s1 s2 : string) :
  escapeJsxText s1 = escapeJsxText s2 -> s1 = s2.
Proof.
  rewrite !escapeJsxText_escapeEach. intros Heq.
  rewrite <- (unescapeEach_escapeEach s1), <- (unescapeEach_escapeEach s2).
  now rewrite Heq.
Qed.

Lemma escapeJsxText_injective_witness :
  escapeJsxText "a < b" = escapeJsxText "a < b" /\ "a < b" = "a < b".
Proof.
  split; [reflexivity|].
  exact (escapeJsxText_injective "a < b" "a < b" eq_refl).
Defined.

Lemma escapeEach_length_upper (s : string) :
  String.length (escapeEach s) <= 5 * String.length s.
Proof.
  induction s as [|a s IH]; [cbn; lia|].
  cbn [escapeEach]. rewrite length_append, escapeChar_length. cbn [String.length].
  destruct (isUnsafe a), (Ascii.eqb a "&"%char); lia.
Qed.

(** X3.  The escaped text is at least as long as the text and at most five
    times as long; it is the text itself when the text holds none of [&],
    [<], [>], and strictly longer otherwise. *)
Theorem escapeJsxText_length (s : string) :
  String.length s <= String.length (escapeJsxText s) <= 5 * String.length s
  /\ (hasUnsafe s = false -> escapeJsxText s = s)
  /\ (hasUnsafe s = true -> String.length s < String.length (escapeJsxText s)).
Proof.
  rewrite !escapeJsxText_escapeEach. split; [split|split].
  - apply escapeEach_length_le.
  - apply escapeEach_length_upper.
  - apply escapeEach_safe.
  - apply escapeEach_length_lt.
Qed.

Lemma escapeJsxText_length_witness :
  hasUnsafe "Hi" = false /\ escapeJsxText "Hi" = "Hi"
  /\ hasUnsafe "a&b" = true /\ 3 < String.length (escapeJsxText "a&b").
Proof.
  split; [reflexivity|]. split.
  - exact (proj1 (proj2 (escapeJsxText_length "Hi")) eq_refl).
  - split; [reflexivity|].
    exact (proj2 (proj2 (escapeJsxText_length "a&b")) eq_refl).
Defined.

Lemma escapeEach_append (s1 s2 : string) :
  escapeEach (s1 ^^ s2) = escapeEach s1 ^^ escapeEach s2.
Proof.
  induction s1 as [|a s1 IH]; [reflexivity|].
  cbn [String.append escapeEach]. now rewrite IH, append_assoc.
Qed.

(** X4.  Escaping goes through concatenation: the escaped form of a text
    put together from two pieces is the escaped pieces put together. *)
Theorem escapeJsxText_append (s1 s2 : string) :
  escapeJsxText (s1 ^^ s2) = escapeJsxText s1 ^^ escapeJsxText s2.
Proof. rewrite !escapeJsxText_escapeEach. apply escapeEach_append. Qed.

(** *** Fragments *)

Lemma nodeFragment_offsets (show : float -> string) (node : Node.t)
  (fb1 fb2 : option Box.t) :
  nodeLeft node fb1 = nodeLeft node fb2 ->
  nodeTop node fb1 = nodeTop node fb2 ->
  nodeFragment show node fb1 = nodeFragment show node fb2.
Proof.
  intros Hl Ht. unfold nodeFragment. now rewrite Hl, Ht.
Qed.

(** X6.  A fragment depends on the reference box through its [x] and [y]
    only, never through its size; and an absent reference box, or one at
    the zero origin, leaves the node's own coordinates. *)
Theorem nodeToJsx_reference (show : float -> string) (node : Node.t) :
  (forall fb1 fb2 : Box.t,
      Box.x fb1 = Box.x fb2 -> Box.y fb1 = Box.y fb2 ->
      nodeToJsx show node (Some fb1) = nodeToJsx show node (Some fb2))
  /\ (forall w h : float,
        nodeToJsx show node (Some (Box.mk 0 0 w h)) = nodeToJsx show node None)
  /\ nodeLeft node None = Js.Math_round (Box.x (nodeBox node))
  /\ nodeTop node None = Js.Math_round (Box.y (nodeBox node)).
Proof.
  split; [|split; [|split]].
  - intros fb1 fb2 Hx Hy. unfold nodeToJsx. f_equal.
    apply nodeFragment_offsets; unfold nodeLeft, nodeTop; cbn [option_map];
      now rewrite ?Hx, ?Hy.
  - intros w h. reflexivity.
  - unfold nodeLeft. cbn [option_map Js.or_zero]. now rewrite sub_zero.
  - unfold nodeTop. cbn [option_map Js.or_zero]. now rewrite sub_zero.
Qed.

Lemma nodeToJsx_reference_witness :
  Box.x (Box.mk 10 20 400 300) = Box.x (Box.mk 10 20 1 1)
  /\ nodeToJsx decimal ex_text (Some (Box.mk 10 20 400 300))
     = nodeToJsx decimal ex_text (Some (Box.mk 10 20 1 1)).
Proof.
  split; [reflexivity|].
  apply (proj1 (nodeToJsx_reference decimal ex_text)); reflexivity.
Defined.

(** X7.  For a node whose type is not [TEXT], the body of the fragment is
    the placeholder comment when the node has a child and empty when it has
    none; no font size is declared; and [characters] and [style] play no
    part in the fragment. *)
Theorem nodeToJsx_container (show : float -> string) (node : Node.t)
  (frameBox : option Box.t) :
  Node.type node <> "TEXT" ->
  body (nodeFragment show node frameBox)
  = match Node.children node with
    | [] => EmptyString
    | _ :: _ => "{/* children inserted by generator */}"
    end
  /\ declaresFontSize (nodeFragment show node frameBox) = false
  /\ nodeToJsx show node frameBox = nodeToJsx show (withoutText node) frameBox.
Proof.
  intros Htype. apply String.eqb_neq in Htype. split; [|split].
  - unfold nodeFragment. rewrite Htype. now destruct (Node.children node).
  - now rewrite declaresFontSize_iff, Htype.
  - unfold nodeToJsx. f_equal. unfold nodeFragment.
    replace (Node.type (withoutText node)) with (Node.type node) by now destruct node.
    rewrite Htype. now destruct node.
Qed.

Lemma nodeToJsx_container_witness :
  Node.type ex_frame <> "TEXT"
  /\ body (nodeFragment decimal ex_frame None) = "{/* children inserted by generator */}"
  /\ body (nodeFragment decimal ex_boxless None) = EmptyString.
Proof.
  split; [discriminate|]. split.
  - exact (proj1 (nodeToJsx_container decimal ex_frame None ltac:(discriminate))).
  - exact (proj1 (nodeToJsx_container decimal ex_boxless None ltac:(discriminate))).
Defined.

(** X8.  The text between the tags of a fragment never holds [<] or
    [>], for a node of any type and with any [characters]. *)
Theorem nodeToJsx_body_no_angle (show : float -> string) (node : Node.t)
  (frameBox : option Box.t) :
  hasAngle (body (nodeFragment show node frameBox)) = false.
Proof.
  unfold nodeFragment. destruct (Node.type node =? "TEXT")%string.
  - cbn [body]. rewrite escapeJsxText_escapeEach. apply escapeEach_no_angle.
  - now destruct (Node.children node).
Qed.

(** *** Flattening *)

(** X9.  Flattening goes ply by ply: the fragments of a sequence of nodes
    are the fragments of these nodes, in order, followed by the flattening
    of all their children; more generally, the front of the queue is emitted
    first and its children are queued behind the rest.  Nothing is emitted
    for an empty sequence. *)
Theorem traverseParts_plies (show : float -> string) (frameBox : option Box.t) :
  (forall nodes : list Node.t,
      traverseParts show nodes frameBox
      = map (fun n => nodeToJsx show n frameBox) nodes
        ++ traverseParts show (flat_map Node.children nodes) frameBox)
  /\ (forall front back : list Node.t,
        traverseParts show (front ++ back) frameBox
        = map (fun n => nodeToJsx show n frameBox) front
          ++ traverseParts show (back ++ flat_map Node.children front) frameBox)
  /\ traverseAndGenerate show [] frameBox = EmptyString.
Proof.
  split; [|split].
  - intros nodes. rewrite !traverseParts_breadthFirst, <- !visit_breadthFirst.
    rewrite (visit_plies nodes) at 1. now rewrite map_app.
  - intros front back. rewrite !traverseParts_breadthFirst, <- !visit_breadthFirst.
    rewrite visit_app. now rewrite map_app.
  - reflexivity.
Qed.



(** *** Locating the frame *)

Lemma find_none_iff {A : Type} (p : A -> bool) (xs : list A) :
  find p xs = None <-> forall x, In x xs -> p x = false.
Proof.
  split; [apply find_none|].
  induction xs as [|x xs IH]; [reflexivity|]. intros H. cbn.
  rewrite (H x (or_introl eq_refl)). apply IH. intros y Hy. apply H. now right.
Qed.

Lemma breadthFirst_In (forest : list Node.t) (n : Node.t) :
  In n (breadthFirst forest) <-> In n (flat_map Node.nodes_of forest).
Proof.
  pose proof (breadthFirst_all_nodes forest) as Hperm.
  split; apply Permutation_in; [exact Hperm | now symmetry].
Qed.

Lemma nodes_of_root (n : Node.t) : In n (Node.nodes_of n).
Proof. rewrite nodes_of_unfold. now left. Qed.

Lemma nodes_of_below (n : Node.t) (forest : list Node.t) :
  In n (flat_map Node.nodes_of forest) -> forall root, Node.children root = forest ->
  In n (Node.nodes_of root).
Proof.
  intros Hin root Hroot. rewrite nodes_of_unfold, Hroot. now right.
Qed.

Lemma childrenOf_below (c : Node.t) (forest : list Node.t) :
  In c (childrenOf forest) -> In c (flat_map Node.nodes_of forest).
Proof.
  unfold childrenOf. rewrite !in_flat_map. intros (p & Hp & Hc).
  exists p. split; [exact Hp|]. rewrite nodes_of_unfold. right.
  apply in_flat_map. exists c. split; [exact Hc | apply nodes_of_root].
Qed.

Lemma isFrame_isCandidate (n : Node.t) : isFrame n = true -> isCandidate n = true.
Proof. unfold isFrame, isCandidate. now intros ->. Qed.

Lemma isCandidate_types (n : Node.t) :
  isCandidate n = true
  <-> In (Node.type n) ["FRAME"; "COMPONENT"; "INSTANCE"; "GROUP"; "RECTANGLE"].
Proof.
  unfold isCandidate. rewrite !orb_true_iff, !String.eqb_eq. cbn [In].
  intuition congruence.
Qed.

Lemma findFrameNode_by_id (doc : Node.t) (target : string) :
  target <> EmptyString ->
  findFrameNode doc (Some target) = find (hasId target) (breadthFirst [doc]).
Proof.
  intros Htarget. unfold findFrameNode.
  rewrite (truthy_str_nonempty target Htarget). apply runSearch_breadthFirst.
Qed.

Lemma breadthFirst_tree_In (doc n : Node.t) :
  In n (breadthFirst [doc]) <-> In n (Node.nodes_of doc).
Proof. rewrite breadthFirst_In. cbn [flat_map]. now rewrite app_nil_r. Qed.

Lemma findFirstFrame_result (doc n : Node.t) :
  findFirstFrame doc = Some n ->
  isCandidate n = true /\ In n (flat_map Node.nodes_of (Node.children doc)).
Proof.
  unfold findFirstFrame. rewrite firstCandidateOfPages_find, runSearch_breadthFirst.
  destruct (find isCandidate (childrenOf (Node.children doc))) as [c|] eqn:Hc.
  - intros H. injection H as <-. apply find_some in Hc as [Hin Hcand].
    split; [exact Hcand | now apply childrenOf_below].
  - intros H. apply find_some in H as [Hin Hframe].
    split; [now apply isFrame_isCandidate | now apply breadthFirst_In].
Qed.

(** X11.  The search by a non-empty id is sound and complete: a node it
    returns is a node of the tree and has the id, and it reports not-found
    exactly when no node of the tree has the id. *)
Theorem findFrameNode_by_id_complete (doc : Node.t) (target : string) :
  target <> EmptyString ->
  (forall n, findFrameNode doc (Some target) = Some n ->
             In n (Node.nodes_of doc) /\ Node.id n = target)
  /\ (findFrameNode doc (Some target) = None
      <-> forall n, In n (Node.nodes_of doc) -> Node.id n <> target).
Proof.
  intros Htarget. rewrite (findFrameNode_by_id doc target Htarget). split.
  - intros n Hfind. apply find_some in Hfind as [Hin Hid].
    split; [now apply breadthFirst_tree_In | now apply String.eqb_eq].
  - rewrite find_none_iff. split; intros H n Hin.
    + apply String.eqb_neq. apply H. now apply breadthFirst_tree_In.
    + apply String.eqb_neq. apply H. now apply breadthFirst_tree_In.
Qed.

Lemma findFrameNode_by_id_complete_witness :
  "7:7" <> EmptyString /\ findFrameNode ex_doc (Some "7:7") = None.
Proof.
  split; [discriminate|].
  apply (proj2 (findFrameNode_by_id_complete ex_doc "7:7" ltac:(discriminate))).
  intros n [<- | [<- | [<- | [<- | []]]]]; discriminate.
Defined.

(** X12.  Without a target id, whatever the locator returns is a node
    below the root, never the root itself taken as such, and its type is one
    of [FRAME], [COMPONENT], [INSTANCE], [GROUP], [RECTANGLE]. *)
Theorem findFrameNode_default_result (doc n : Node.t) :
  findFrameNode doc None = Some n ->
  In (Node.type n) ["FRAME"; "COMPONENT"; "INSTANCE"; "GROUP"; "RECTANGLE"]
  /\ In n (flat_map Node.nodes_of (Node.children doc)).
Proof.
  intros Hfind. apply findFirstFrame_result in Hfind as [Hcand Hin].
  split; [now apply isCandidate_types | exact Hin].
Qed.

Lemma findFrameNode_default_result_witness :
  findFrameNode ex_doc None = Some ex_frame
  /\ In (Node.type ex_frame) ["FRAME"; "COMPONENT"; "INSTANCE"; "GROUP"; "RECTANGLE"].
Proof.
  split; [reflexivity|].
  exact (proj1 (findFrameNode_default_result ex_doc ex_frame eq_refl)).
Defined.

Lemma findFirstFrame_none_candidates (doc c : Node.t) :
  findFirstFrame doc = None ->
  In c (flat_map Node.children (Node.children doc)) -> isCandidate c = false.
Proof.
  unfold findFirstFrame. rewrite firstCandidateOfPages_find. unfold childrenOf.
  destruct (find isCandidate (flat_map Node.children (Node.children doc)))
    as [found|] eqn:Hc; [discriminate|].
  intros _ Hin. exact (find_none _ _ Hc c Hin).
Qed.

(** X13.  Without a target id, the locator reports not-found exactly when
    no child of a page has one of the five candidate types and no node below
    the root has type [FRAME]. *)
Theorem findFrameNode_default_none (doc : Node.t) :
  findFrameNode doc None = None
  <-> (forall c, In c (flat_map Node.children (Node.children doc)) ->
                 ~ In (Node.type c) ["FRAME"; "COMPONENT"; "INSTANCE"; "GROUP"; "RECTANGLE"])
      /\ (forall n, In n (flat_map Node.nodes_of (Node.children doc)) ->
                    Node.type n <> "FRAME").
Proof.
  unfold findFrameNode, findFirstFrame.
  rewrite firstCandidateOfPages_find, runSearch_breadthFirst. unfold childrenOf.
  split.
  - destruct (find isCandidate (flat_map Node.children (Node.children doc)))
      as [c|] eqn:Hc; [discriminate|].
    intros Hframe. split.
    + intros c Hin Htype. apply isCandidate_types in Htype.
      rewrite (find_none _ _ Hc c Hin) in Htype. discriminate.
    + intros n Hin. apply String.eqb_neq.
      apply (find_none _ _ Hframe). now apply breadthFirst_In.
  - intros [Hcand Hframe].
    assert (Hc : find isCandidate (flat_map Node.children (Node.children doc)) = None).
    { apply find_none_iff. intros c Hin. apply not_true_iff_false.
      intros Htrue. apply (Hcand c Hin). now apply isCandidate_types. }
    rewrite Hc. apply find_none_iff. intros n Hin. apply String.eqb_neq.
    apply Hframe. now apply breadthFirst_In.
Qed.

Lemma findFrameNode_default_none_witness :
  findFrameNode ex_text_doc None = None
  /\ Node.type ex_lone_text <> "FRAME".
Proof.
  split; [reflexivity|].
  apply (proj2 (proj1 (findFrameNode_default_none ex_text_doc) eq_refl)).
  cbn. tauto.
Defined.

Lemma ply_beyond (depth : nat) :
  forall forest, Node.forest_size forest <= depth -> ply depth forest = [].
Proof.
  induction depth as [|depth IH]; intros forest Hsize.
  - now rewrite (forest_size_nil_inv forest) by lia.
  - cbn [ply]. apply IH. pose proof (forest_size_children forest) as Hch.
    destruct forest; cbn [length] in Hch; [cbn; lia | lia].
Qed.

Lemma find_concat_seq {A : Type} (p : A -> bool) (g : nat -> list A) (x : A)
  (count : nat) :
  forall start depth,
    start <= depth < start + count ->
    (forall k, start <= k < depth -> find p (g k) = None) ->
    find p (g depth) = Some x ->
    find p (concat (map g (seq start count))) = Some x.
Proof.
  induction count as [|count IH]; intros start depth Hrange Hnone Hsome; [lia|].
  cbn [seq map concat]. rewrite find_app_first.
  destruct (Nat.eq_dec start depth) as [->|Hneq]; [now rewrite Hsome|].
  rewrite (Hnone start) by lia. apply (IH (S start) depth); [lia | | exact Hsome].
  intros k Hk. apply Hnone. lia.
Qed.

Lemma find_breadthFirst_ply (p : Node.t -> bool) (forest : list Node.t)
  (depth : nat) (n : Node.t) :
  (forall k, k < depth -> find p (ply k forest) = None) ->
  find p (ply depth forest) = Some n ->
  find p (breadthFirst forest) = Some n.
Proof.
  intros Hnone Hsome. unfold breadthFirst.
  apply (find_concat_seq p (fun d => ply d forest) n _ 0 depth).
  - split; [lia|]. cbn [Nat.add].
    destruct (Nat.lt_ge_cases depth (Node.forest_size forest)) as [Hlt|Hge]; [exact Hlt|].
    rewrite (ply_beyond depth forest Hge) in Hsome. discriminate.
  - intros k Hk. apply Hnone. lia.
  - exact Hsome.
Qed.

(** X14.  When several nodes carry the target id, the shallowest wins, and
    among those of one depth the first in listed order: if no node of the
    plies above depth [d] has the id, the result is the first node of ply
    [d] that has it, wherever deeper matches stand in the document. *)
Theorem findFrameNode_shallowest (doc : Node.t) (target : string) (depth : nat)
  (n : Node.t) :
  target <> EmptyString ->
  (forall k, k < depth -> find (hasId target) (ply k [doc]) = None) ->
  find (hasId target) (ply depth [doc]) = Some n ->
  findFrameNode doc (Some target) = Some n.
Proof.
  intros Htarget Hnone Hsome. rewrite (findFrameNode_by_id doc target Htarget).
  now apply (find_breadthFirst_ply _ _ depth).
Qed.

Lemma findFrameNode_shallowest_witness :
  Node.nodes_of ex_twice_doc
  = [ex_twice_doc; ex_page_a; ex_holder; ex_deep; ex_page_b; ex_shallow]
  /\ Node.id ex_deep = "9:9"
  /\ findFrameNode ex_twice_doc (Some "9:9") = Some ex_shallow.
Proof.
  split; [reflexivity|]. split; [reflexivity|].
  apply (findFrameNode_shallowest ex_twice_doc "9:9" 2 ex_shallow).
  - discriminate.
  - intros k Hk. destruct k as [|[|k]]; [reflexivity | reflexivity | lia].
  - reflexivity.
Defined.

(** X15.  A non-empty target id equal to the root's id selects the root
    itself, whatever else the tree holds. *)
Theorem findFrameNode_root_id (doc : Node.t) :
  Node.id doc <> EmptyString ->
  findFrameNode doc (Some (Node.id doc)) = Some doc.
Proof.
  intros Hid. rewrite (findFrameNode_by_id doc _ Hid), breadthFirst_cons.
  cbn [find]. unfold hasId at 1. now rewrite String.eqb_refl.
Qed.

Lemma findFrameNode_root_id_witness :
  Node.id ex_doc <> EmptyString /\ findFrameNode ex_doc (Some "0:0") = Some ex_doc.
Proof.
  split; [discriminate|].
  exact (findFrameNode_root_id ex_doc ltac:(discriminate)).
Defined.

(** *** Assembling the files *)

Lemma fallbackNode_In (doc fallback : Node.t) :
  fallbackNode doc = Some fallback -> In fallback (Node.nodes_of doc).
Proof.
  unfold fallbackNode.
  destruct (Node.children doc) as [|page pages] eqn:Hdoc; [discriminate|].
  destruct (Node.children page) as [|child rest] eqn:Hpage; [discriminate|].
  intros H. injection H as <-.
  apply (nodes_of_below _ (page :: pages)); [|exact Hdoc].
  apply childrenOf_below. unfold childrenOf. cbn [flat_map].
  rewrite Hpage. now left.
Qed.

Lemma findFrameNode_In (doc : Node.t) (nodeId : option string) (n : Node.t) :
  findFrameNode doc nodeId = Some n -> In n (Node.nodes_of doc).
Proof.
  assert (Hdefault : findFirstFrame doc = Some n -> In n (Node.nodes_of doc)).
  { intros H. apply findFirstFrame_result in H as [_ Hin].
    now apply (nodes_of_below _ (Node.children doc)). }
  unfold findFrameNode. destruct nodeId as [target|]; [|exact Hdefault].
  destruct (Js.truthy_str target); [|exact Hdefault].
  rewrite runSearch_breadthFirst. intros H. apply find_some in H as [Hin _].
  now apply breadthFirst_tree_In.
Qed.

(** X16.  A non-empty target id that no node of the tree carries does not
    make the generation fail when the first page has a child: the reduced
    mapping built from that child is returned instead. *)
Theorem generateFilesFromFigmaFile_unknown_id (show : float -> string)
  (doc page fallback : Node.t) (pages rest : list Node.t) (target : string) :
  target <> EmptyString ->
  (forall n, In n (Node.nodes_of doc) -> Node.id n <> target) ->
  Node.children doc = page :: pages ->
  Node.children page = fallback :: rest ->
  generateFilesFromFigmaFile show doc (Some target)
  = Returned [ ("App.jsx", reactAppFromFrame show fallback);
               ("README.md", fallbackReadme fallback) ].
Proof.
  intros Htarget Habsent Hdoc Hpage. unfold generateFilesFromFigmaFile.
  assert (Hnone : findFrameNode doc (Some target) = None).
  { rewrite (findFrameNode_by_id doc target Htarget). apply find_none_iff.
    intros n Hin. apply String.eqb_neq, Habsent. now apply breadthFirst_tree_In. }
  rewrite Hnone. unfold fallbackNode. now rewrite Hdoc, Hpage.
Qed.

Lemma generateFilesFromFigmaFile_unknown_id_witness :
  "7:7" <> EmptyString
  /\ generateFilesFromFigmaFile decimal ex_doc (Some "7:7")
     = Returned [ ("App.jsx", reactAppFromFrame decimal ex_frame);
                  ("README.md", "Generated from Figma file: fallback frame (Home)") ].
Proof.
  split; [discriminate|].
  apply (generateFilesFromFigmaFile_unknown_id decimal ex_doc ex_page ex_frame [] []).
  - discriminate.
  - intros n [<- | [<- | [<- | [<- | []]]]]; discriminate.
  - reflexivity.
  - reflexivity.
Defined.

(** X17.  Without a target id, the reduced mapping is returned only for a
    document in which the locator found nothing, and the fallback node it is
    built from, the first page's first child, then has none of the five
    candidate types. *)
Theorem generateFilesFromFigmaFile_reduced (show : float -> string) (doc : Node.t)
  (files : list (string * string)) :
  generateFilesFromFigmaFile show doc None = Returned files ->
  map fst files = ["App.jsx"; "README.md"] ->
  findFrameNode doc None = None
  /\ exists fallback,
       fallbackNode doc = Some fallback
       /\ files = fallbackFiles show fallback
       /\ ~ In (Node.type fallback)
              ["FRAME"; "COMPONENT"; "INSTANCE"; "GROUP"; "RECTANGLE"].
Proof.
  unfold generateFilesFromFigmaFile.
  destruct (findFrameNode doc None) as [frame|] eqn:Hfind.
  { intros H. injection H as <-. discriminate. }
  destruct (fallbackNode doc) as [fallback|] eqn:Hfb; [|discriminate].
  intros H _. injection H as <-. split; [reflexivity|].
  exists fallback. split; [reflexivity | split; [reflexivity|]].
  rewrite <- isCandidate_types, not_true_iff_false.
  apply (findFirstFrame_none_candidates doc fallback Hfind).
  unfold fallbackNode in Hfb.
  destruct (Node.children doc) as [|page pages]; [discriminate|].
  destruct (Node.children page) as [|child rest] eqn:Hpage; [discriminate|].
  injection Hfb as <-. cbn [flat_map]. rewrite Hpage. now left.
Qed.

Lemma generateFilesFromFigmaFile_reduced_witness :
  generateFilesFromFigmaFile decimal ex_text_doc None
  = Returned (fallbackFiles decimal ex_lone_text)
  /\ findFrameNode ex_text_doc None = None.
Proof.
  split; [reflexivity|].
  exact (proj1 (generateFilesFromFigmaFile_reduced decimal ex_text_doc
                  (fallbackFiles decimal ex_lone_text) eq_refl eq_refl)).
Defined.

(** X18.  For a document without pages the generation throws
    [No frame found in file.] for every target id but the root's own. *)
Theorem generateFilesFromFigmaFile_no_pages (show : float -> string) (doc : Node.t)
  (nodeId : option string) :
  Node.children doc = [] ->
  nodeId <> Some (Node.id doc) ->
  generateFilesFromFigmaFile show doc nodeId = Thrown "No frame found in file.".
Proof.
  intros Hnil Hid. unfold generateFilesFromFigmaFile.
  assert (Hnone : findFrameNode doc nodeId = None).
  { assert (Hdefault : findFirstFrame doc = None).
    { unfold findFirstFrame. now rewrite Hnil. }
    unfold findFrameNode. destruct nodeId as [target|]; [|exact Hdefault].
    destruct (Js.truthy_str target); [|exact Hdefault].
    rewrite runSearch_breadthFirst, breadthFirst_cons, Hnil. cbn.
    destruct (hasId target doc) eqn:Hhas; [|reflexivity].
    apply String.eqb_eq in Hhas. congruence. }
  rewrite Hnone. unfold fallbackNode. now rewrite Hnil.
Qed.

Lemma generateFilesFromFigmaFile_no_pages_witness :
  Node.children ex_boxless = []
  /\ generateFilesFromFigmaFile decimal ex_boxless (Some "1:2")
     = Thrown "No frame found in file.".
Proof.
  split; [reflexivity|].
  apply generateFilesFromFigmaFile_no_pages; [reflexivity | discriminate].
Defined.

(** X19.  Whatever is returned, its first entry is [App.jsx], built by
    [reactAppFromFrame] from a node of the given document, and it has a
    [README.md]. *)
Theorem generateFilesFromFigmaFile_root_component (show : float -> string)
  (doc : Node.t) (nodeId : option string) (files : list (string * string)) :
  generateFilesFromFigmaFile show doc nodeId = Returned files ->
  (exists n, In n (Node.nodes_of doc)
             /\ hd_error files = Some ("App.jsx", reactAppFromFrame show n))
  /\ In "README.md" (map fst files).
Proof.
  unfold generateFilesFromFigmaFile.
  destruct (findFrameNode doc nodeId) as [frame|] eqn:Hfind.
  - intros H. injection H as <-. split; [|cbn; tauto].
    exists frame. split; [now apply (findFrameNode_In doc nodeId) | reflexivity].
  - destruct (fallbackNode doc) as [fallback|] eqn:Hfb; [|discriminate].
    intros H. injection H as <-. split; [|cbn; tauto].
    exists fallback. split; [now apply fallbackNode_In | reflexivity].
Qed.

Lemma generateFilesFromFigmaFile_root_component_witness :
  generateFilesFromFigmaFile decimal ex_doc (Some "1:3")
  = Returned (fullFiles decimal ex_text)
  /\ In "README.md" (map fst (fullFiles decimal ex_text)).
Proof.
  split; [reflexivity|].
  exact (proj2 (generateFilesFromFigmaFile_root_component decimal ex_doc
                  (Some "1:3") (fullFiles decimal ex_text) eq_refl)).
Defined.
